(** * StrixCraft.io shared protocol: the wire types and what they admit

    The shared package of the repository consists of two TypeScript
    modules, [shared/src/protocol.ts] and [shared/src/types.ts].  Both hold
    type declarations only: string enums, interfaces (with [extends]) and
    one union.  This development transcribes those declarations and
    states, against them, which JavaScript values are well formed.

    - [TS]: JavaScript values and the structural meaning of the TypeScript
      types that the two modules use.
    - [Protocol]: [protocol.ts], declaration by declaration.
    - [Types]: [types.ts], declaration by declaration.
    - [Uint8Array]: reads and writes of the elements of a typed array.
    - [Codec], [Session]: the encoder, the decoder and the connection
      state machine that the design document describes and the repository
      does not have yet, over the messages of [Protocol].
*)

From Stdlib Require Import ZArith List String Bool Lia.
Import ListNotations.
Open Scope string_scope.
Open Scope Z_scope.
Set Warnings "-register-all".

(* ================================================================= *)
(** * TypeScript types and JavaScript values *)

Module TS.

(** JavaScript values.  A [number] is kept as its integer value: every
    number the declarations below talk about is a count, an identifier,
    a coordinate or a millisecond timestamp.  A [Uint8Array] is the list
    of its elements; an object is the list of its own properties in
    insertion order. *)
Inductive value : Type :=
| VUndefined
| VBoolean (b : bool)
| VNumber (n : Z)
| VString (s : string)
| VUint8Array (elements : list Z)
| VArray (elements : list value)
| VObject (properties : list (string * value)).

(** The type expressions that occur in the two modules. *)
Inductive ty : Type :=
| TString
| TNumber
| TBoolean
| TAny
| TUint8Array
| TLiteral (s : string)              (* 'chat', MessageType.PING, ... *)
| TUnion (alternatives : list ty)    (* A | B | C, and a string enum *)
| TArray (element : ty)              (* T[] *)
| TTuple (elements : list ty)        (* [T1, T2, T3] *)
| TRecord (element : ty)             (* Record<string, T> *)
| TObject (properties : list property)
with property : Type :=
| Property (name : string) (optional : bool) (type : ty).

Definition prop_name (p : property) : string :=
  match p with Property n _ _ => n end.
Definition prop_optional (p : property) : bool :=
  match p with Property _ o _ => o end.
Definition prop_type (p : property) : ty :=
  match p with Property _ _ t => t end.

(** [name: T] and [name?: T]. *)
Definition required (name : string) (t : ty) : property := Property name false t.
Definition optional (name : string) (t : ty) : property := Property name true t.

(** Property read [o.name]: the first binding of [name]. *)
Fixpoint lookup (name : string) (properties : list (string * value)) : option value :=
  match properties with
  | [] => None
  | (k, v) :: rest => if String.eqb k name then Some v else lookup name rest
  end.

Definition get (v : value) (name : string) : option value :=
  match v with
  | VObject properties => lookup name properties
  | _ => None
  end.

(** The declared property of that name, if any. *)
Fixpoint find_prop (name : string) (props : list property) : option property :=
  match props with
  | [] => None
  | p :: rest => if String.eqb (prop_name p) name then Some p else find_prop name rest
  end.

Definition declares (name : string) (props : list property) : bool :=
  match find_prop name props with Some _ => true | None => false end.

(** [interface I extends B { own }]: the properties of [B] that [I] does
    not declare again, followed by the ones [I] declares.  A property
    declared again is the same property with the new type. *)
Definition extend (base own : list property) : list property :=
  filter (fun p => negb (declares (prop_name p) own)) base ++ own.

(** The properties of an interface type. *)
Definition props_of (t : ty) : list property :=
  match t with TObject props => props | _ => [] end.

Definition interface (props : list property) : ty := TObject props.
Definition interface_extends (base : ty) (own : list property) : ty :=
  TObject (extend (props_of base) own).

(** An element of a [Uint8Array] is an unsigned 8-bit integer. *)
Definition is_uint8 (n : Z) : bool := (0 <=? n) && (n <? 256).

(** [conforms v t]: the value [v] is assignable to the type [t].
    Object types are open, as in TypeScript: properties that the type
    does not declare are allowed.  An optional property may be missing
    or [undefined]. *)
Fixpoint conforms (v : value) (t : ty) {struct t} : bool :=
  match t with
  | TAny => true
  | TString => match v with VString _ => true | _ => false end
  | TNumber => match v with VNumber _ => true | _ => false end
  | TBoolean => match v with VBoolean _ => true | _ => false end
  | TUint8Array =>
      match v with VUint8Array elements => forallb is_uint8 elements | _ => false end
  | TLiteral s => match v with VString s' => String.eqb s' s | _ => false end
  | TUnion alternatives => existsb (fun a => conforms v a) alternatives
  | TArray element =>
      match v with
      | VArray elements => forallb (fun e => conforms e element) elements
      | _ => false
      end
  | TTuple types =>
      match v with
      | VArray elements =>
          (fix all2 (ts : list ty) (es : list value) {struct ts} : bool :=
             match ts, es with
             | [], [] => true
             | t' :: ts', e :: es' => conforms e t' && all2 ts' es'
             | _, _ => false
             end) types elements
      | _ => false
      end
  | TRecord element =>
      match v with
      | VObject properties => forallb (fun kv => conforms (snd kv) element) properties
      | _ => false
      end
  | TObject props =>
      match v with
      | VObject properties =>
          forallb
            (fun p =>
               match p with
               | Property name opt t' =>
                   match lookup name properties with
                   | None => opt
                   | Some VUndefined => opt || conforms VUndefined t'
                   | Some x => conforms x t'
                   end
               end) props
      | _ => false
      end
  end.

(** What one declared property asks of the properties of an object: the
    check that [conforms] makes for each property of an object type. *)
Definition admits (properties : list (string * value)) (p : property) : bool :=
  match p with
  | Property name opt t =>
      match lookup name properties with
      | None => opt
      | Some VUndefined => opt || conforms VUndefined t
      | Some x => conforms x t
      end
  end.

(** The read [m.name] of [m] at the type [t]: [t] must declare [name]. *)
Definition read (t : ty) (m : value) (name : string) : option value :=
  if declares name (props_of t) then get m name else None.

(** A property of type [number] whose name is not among [names]. *)
Definition number_besides (names : list string) (p : property) : bool :=
  match p with
  | Property name _ TNumber => negb (existsb (String.eqb name) names)
  | _ => false
  end.

(** A string enum: its members and their values. *)
Definition string_enum {A : Type} (members : list A) (value_of : A -> string) : ty :=
  TUnion (map (fun m => TLiteral (value_of m)) members).

End TS.

(* ================================================================= *)
(** * shared/src/protocol.ts *)

Module Protocol.
Import TS.

Inductive MessageType : Type :=
(* Authentication *)
| AUTH_REQUEST | AUTH_RESPONSE
(* World Management *)
| WORLD_LIST_REQUEST | WORLD_LIST_RESPONSE
| WORLD_CREATE_REQUEST | WORLD_CREATE_RESPONSE
| WORLD_JOIN_REQUEST | WORLD_JOIN_RESPONSE
| WORLD_LEAVE_REQUEST | WORLD_DELETE_REQUEST
(* Player Management *)
| PLAYER_JOIN | PLAYER_LEAVE | PLAYER_UPDATE | PLAYER_INVENTORY_UPDATE
(* World Data *)
| CHUNK_REQUEST | CHUNK_DATA | BLOCK_UPDATE
| ENTITY_SPAWN | ENTITY_UPDATE | ENTITY_DESPAWN
(* Game Mechanics *)
| CRAFTING_REQUEST | CRAFTING_RESPONSE | INVENTORY_ACTION
| HEALTH_UPDATE | EXPERIENCE_UPDATE
(* Chat *)
| CHAT_MESSAGE | COMMAND_REQUEST | COMMAND_RESPONSE
(* System *)
| PING | PONG | ERROR | SERVER_STATS.

Definition MessageType_value (t : MessageType) : string :=
  match t with
  | AUTH_REQUEST => "auth_request"
  | AUTH_RESPONSE => "auth_response"
  | WORLD_LIST_REQUEST => "world_list_request"
  | WORLD_LIST_RESPONSE => "world_list_response"
  | WORLD_CREATE_REQUEST => "world_create_request"
  | WORLD_CREATE_RESPONSE => "world_create_response"
  | WORLD_JOIN_REQUEST => "world_join_request"
  | WORLD_JOIN_RESPONSE => "world_join_response"
  | WORLD_LEAVE_REQUEST => "world_leave_request"
  | WORLD_DELETE_REQUEST => "world_delete_request"
  | PLAYER_JOIN => "player_join"
  | PLAYER_LEAVE => "player_leave"
  | PLAYER_UPDATE => "player_update"
  | PLAYER_INVENTORY_UPDATE => "player_inventory_update"
  | CHUNK_REQUEST => "chunk_request"
  | CHUNK_DATA => "chunk_data"
  | BLOCK_UPDATE => "block_update"
  | ENTITY_SPAWN => "entity_spawn"
  | ENTITY_UPDATE => "entity_update"
  | ENTITY_DESPAWN => "entity_despawn"
  | CRAFTING_REQUEST => "crafting_request"
  | CRAFTING_RESPONSE => "crafting_response"
  | INVENTORY_ACTION => "inventory_action"
  | HEALTH_UPDATE => "health_update"
  | EXPERIENCE_UPDATE => "experience_update"
  | CHAT_MESSAGE => "chat_message"
  | COMMAND_REQUEST => "command_request"
  | COMMAND_RESPONSE => "command_response"
  | PING => "ping"
  | PONG => "pong"
  | ERROR => "error"
  | SERVER_STATS => "server_stats"
  end.

(** The members of the enum, in declaration order. *)
Definition MessageType_members : list MessageType :=
  [ AUTH_REQUEST; AUTH_RESPONSE;
    WORLD_LIST_REQUEST; WORLD_LIST_RESPONSE;
    WORLD_CREATE_REQUEST; WORLD_CREATE_RESPONSE;
    WORLD_JOIN_REQUEST; WORLD_JOIN_RESPONSE;
    WORLD_LEAVE_REQUEST; WORLD_DELETE_REQUEST;
    PLAYER_JOIN; PLAYER_LEAVE; PLAYER_UPDATE; PLAYER_INVENTORY_UPDATE;
    CHUNK_REQUEST; CHUNK_DATA; BLOCK_UPDATE;
    ENTITY_SPAWN; ENTITY_UPDATE; ENTITY_DESPAWN;
    CRAFTING_REQUEST; CRAFTING_RESPONSE; INVENTORY_ACTION;
    HEALTH_UPDATE; EXPERIENCE_UPDATE;
    CHAT_MESSAGE; COMMAND_REQUEST; COMMAND_RESPONSE;
    PING; PONG; ERROR; SERVER_STATS ].

(** The type [MessageType] and the type of one member, [MessageType.X]. *)
Definition MessageType_type : ty :=
  string_enum MessageType_members MessageType_value.
Definition member (t : MessageType) : ty := TLiteral (MessageType_value t).

Definition BaseMessage : ty :=
  interface
    [ required "type" MessageType_type;
      required "id" TString;
      required "timestamp" TNumber ].

Definition AuthRequestMessage : ty :=
  interface_extends BaseMessage
    [ required "type" (member AUTH_REQUEST);
      required "username" TString;
      required "password" TString ].

Definition AuthResponseMessage : ty :=
  interface_extends BaseMessage
    [ required "type" (member AUTH_RESPONSE);
      required "success" TBoolean;
      optional "token" TString;
      optional "player" TAny;
      optional "error" TString ].

Definition WorldListRequestMessage : ty :=
  interface_extends BaseMessage
    [ required "type" (member WORLD_LIST_REQUEST) ].

Definition WorldListResponseMessage : ty :=
  interface_extends BaseMessage
    [ required "type" (member WORLD_LIST_RESPONSE);
      required "worlds" (TArray TAny) ].

Definition WorldCreateRequestMessage : ty :=
  interface_extends BaseMessage
    [ required "type" (member WORLD_CREATE_REQUEST);
      required "name" TString;
      required "seed" TNumber;
      required "gameMode" TString;
      required "settings" TAny ].

Definition WorldCreateResponseMessage : ty :=
  interface_extends BaseMessage
    [ required "type" (member WORLD_CREATE_RESPONSE);
      required "success" TBoolean;
      optional "world" TAny;
      optional "error" TString ].

Definition WorldJoinRequestMessage : ty :=
  interface_extends BaseMessage
    [ required "type" (member WORLD_JOIN_REQUEST);
      required "worldId" TString ].

Definition WorldJoinResponseMessage : ty :=
  interface_extends BaseMessage
    [ required "type" (member WORLD_JOIN_RESPONSE);
      required "success" TBoolean;
      optional "world" TAny;
      optional "player" TAny;
      optional "error" TString ].

Definition PlayerJoinMessage : ty :=
  interface_extends BaseMessage
    [ required "type" (member PLAYER_JOIN);
      required "player" TAny ].

Definition PlayerLeaveMessage : ty :=
  interface_extends BaseMessage
    [ required "type" (member PLAYER_LEAVE);
      required "playerId" TString ].

Definition PlayerUpdateMessage : ty :=
  interface_extends BaseMessage
    [ required "type" (member PLAYER_UPDATE);
      required "playerId" TString;
      required "position" (TTuple [TNumber; TNumber; TNumber]);
      required "rotation" (TTuple [TNumber; TNumber; TNumber]);
      optional "health" TNumber;
      optional "hunger" TNumber ].

Definition ChunkRequestMessage : ty :=
  interface_extends BaseMessage
    [ required "type" (member CHUNK_REQUEST);
      required "x" TNumber;
      required "z" TNumber ].

Definition ChunkDataMessage : ty :=
  interface_extends BaseMessage
    [ required "type" (member CHUNK_DATA);
      required "x" TNumber;
      required "z" TNumber;
      required "blocks" TUint8Array;
      required "metadata" TUint8Array;
      required "light" TUint8Array ].

Definition BlockUpdateMessage : ty :=
  interface_extends BaseMessage
    [ required "type" (member BLOCK_UPDATE);
      required "x" TNumber;
      required "y" TNumber;
      required "z" TNumber;
      required "blockId" TNumber;
      optional "metadata" TNumber ].

Definition ChatMessageMessage : ty :=
  interface_extends BaseMessage
    [ required "type" (member CHAT_MESSAGE);
      required "sender" TString;
      required "content" TString;
      required "messageType"
        (TUnion [TLiteral "chat"; TLiteral "system"; TLiteral "command"]) ].

Definition CommandRequestMessage : ty :=
  interface_extends BaseMessage
    [ required "type" (member COMMAND_REQUEST);
      required "command" TString;
      required "args" (TArray TString) ].

Definition CommandResponseMessage : ty :=
  interface_extends BaseMessage
    [ required "type" (member COMMAND_RESPONSE);
      required "success" TBoolean;
      required "message" TString;
      optional "data" TAny ].

Definition PingMessage : ty :=
  interface_extends BaseMessage
    [ required "type" (member PING) ].

Definition PongMessage : ty :=
  interface_extends BaseMessage
    [ required "type" (member PONG);
      required "timestamp" TNumber ].

Definition ErrorMessage : ty :=
  interface_extends BaseMessage
    [ required "type" (member ERROR);
      required "error" TString;
      optional "code" TNumber ].

(** The members of the union [NetworkMessage], each with the name of its
    interface, in the order of the declaration. *)
Definition NetworkMessage_members : list (string * ty) :=
  [ ("AuthRequestMessage", AuthRequestMessage);
    ("AuthResponseMessage", AuthResponseMessage);
    ("WorldListRequestMessage", WorldListRequestMessage);
    ("WorldListResponseMessage", WorldListResponseMessage);
    ("WorldCreateRequestMessage", WorldCreateRequestMessage);
    ("WorldCreateResponseMessage", WorldCreateResponseMessage);
    ("WorldJoinRequestMessage", WorldJoinRequestMessage);
    ("WorldJoinResponseMessage", WorldJoinResponseMessage);
    ("PlayerJoinMessage", PlayerJoinMessage);
    ("PlayerLeaveMessage", PlayerLeaveMessage);
    ("PlayerUpdateMessage", PlayerUpdateMessage);
    ("ChunkRequestMessage", ChunkRequestMessage);
    ("ChunkDataMessage", ChunkDataMessage);
    ("BlockUpdateMessage", BlockUpdateMessage);
    ("ChatMessageMessage", ChatMessageMessage);
    ("CommandRequestMessage", CommandRequestMessage);
    ("CommandResponseMessage", CommandResponseMessage);
    ("PingMessage", PingMessage);
    ("PongMessage", PongMessage);
    ("ErrorMessage", ErrorMessage) ].

Definition NetworkMessage : ty := TUnion (map snd NetworkMessage_members).

(** The tag that keys a member of the union: the literal type of its
    [type] property. *)
Definition tag_of (shape : ty) : option string :=
  match find_prop "type" (props_of shape) with
  | Some (Property _ false (TLiteral s)) => Some s
  | _ => None
  end.

Definition keyed_by (t : MessageType) (shape : string * ty) : bool :=
  match tag_of (snd shape) with
  | Some s => String.eqb s (MessageType_value t)
  | None => false
  end.

(** The payload shapes of the union that carry the tag [t]. *)
Definition shapes_of (t : MessageType) : list (string * ty) :=
  filter (keyed_by t) NetworkMessage_members.

End Protocol.

(* ================================================================= *)
(** * shared/src/types.ts

    The declarations follow the file, except that a declaration used
    before its place in the file ([GameMode], [InventoryItem], [DropItem],
    the parts of [CraftingRecipe] and of [Biome]) is moved up. *)

Module Types.
Import TS.

Inductive GameMode : Type := SURVIVAL | CREATIVE.

Definition GameMode_value (g : GameMode) : string :=
  match g with
  | SURVIVAL => "survival"
  | CREATIVE => "creative"
  end.

Definition GameMode_members : list GameMode := [SURVIVAL; CREATIVE].

Definition GameMode_type : ty := string_enum GameMode_members GameMode_value.

Definition WorldInfo : ty :=
  interface
    [ required "id" TString;
      required "name" TString;
      required "seed" TNumber;
      required "gameMode" GameMode_type;
      required "playerCount" TNumber;
      required "maxPlayers" TNumber;
      required "createdAt" TString;
      required "lastActive" TString;
      required "isOnline" TBoolean ].

Definition InventoryItem : ty :=
  interface
    [ required "id" TNumber;
      required "count" TNumber;
      optional "metadata" (TRecord TAny) ].

Definition Player : ty :=
  interface
    [ required "id" TString;
      required "username" TString;
      required "position" (TTuple [TNumber; TNumber; TNumber]);
      required "rotation" (TTuple [TNumber; TNumber; TNumber]);
      required "health" TNumber;
      required "maxHealth" TNumber;
      required "hunger" TNumber;
      required "maxHunger" TNumber;
      required "experience" TNumber;
      required "level" TNumber;
      required "inventory" (TArray InventoryItem);
      required "selectedSlot" TNumber;
      required "gameMode" GameMode_type ].

Definition DropItem : ty :=
  interface
    [ required "id" TNumber;
      required "count" TNumber;
      required "probability" TNumber ].

Definition Block : ty :=
  interface
    [ required "id" TNumber;
      required "name" TString;
      required "texture" TString;
      required "hardness" TNumber;
      optional "toolRequired" TString;
      required "drops" (TArray DropItem);
      required "isTransparent" TBoolean;
      required "isSolid" TBoolean;
      required "isActive" TBoolean ].

Definition CraftingIngredient : ty :=
  interface
    [ required "id" TNumber;
      required "count" TNumber;
      required "position" (TTuple [TNumber; TNumber]) ].

Definition CraftingResult : ty :=
  interface
    [ required "id" TNumber;
      required "count" TNumber ].

Definition CraftingRecipe : ty :=
  interface
    [ required "id" TString;
      required "name" TString;
      required "ingredients" (TArray CraftingIngredient);
      required "result" CraftingResult;
      required "craftingTable" TBoolean ].

Definition BiomeBlocks : ty :=
  interface
    [ required "surface" TNumber;
      required "subsurface" TNumber;
      required "deep" TNumber;
      required "water" TNumber ].

Definition Structure : ty :=
  interface
    [ required "id" TString;
      required "name" TString;
      required "rarity" TNumber;
      required "minHeight" TNumber;
      required "maxHeight" TNumber;
(* [x, y, z, blockId] *)
required "blocks" (TArray (TTuple [TNumber; TNumber; TNumber; TNumber])) ].

Definition MobSpawn : ty :=
  interface
    [ required "mobId" TString;
      required "weight" TNumber;
      required "minGroup" TNumber;
      required "maxGroup" TNumber ].

Definition Biome : ty :=
  interface
    [ required "id" TString;
      required "name" TString;
      required "temperature" TNumber;
      required "humidity" TNumber;
      required "baseHeight" TNumber;
      required "heightVariation" TNumber;
      required "blocks" BiomeBlocks;
      required "structures" (TArray Structure);
      required "mobs" (TArray MobSpawn) ].

Definition ChatMessage : ty :=
  interface
    [ required "id" TString;
      required "sender" TString;
      required "content" TString;
      required "timestamp" TString;
      required "type"
        (TUnion [TLiteral "chat"; TLiteral "system"; TLiteral "command"]) ].

Definition ServerStats : ty :=
  interface
    [ required "uptime" TNumber;
      required "playerCount" TNumber;
      required "maxPlayers" TNumber;
      required "worlds" TNumber;
      required "chunksLoaded" TNumber;
      required "memoryUsage" TNumber;
      required "cpuUsage" TNumber ].

Definition WorldSettings : ty :=
  interface
    [ required "name" TString;
      required "seed" TNumber;
      required "gameMode" GameMode_type;
      required "maxPlayers" TNumber;
      required "allowPvP" TBoolean;
      required "allowMobGriefing" TBoolean;
      required "keepInventory" TBoolean;
      required "naturalRegeneration" TBoolean;
      required "difficulty"
        (TUnion [TLiteral "peaceful"; TLiteral "easy";
                 TLiteral "normal"; TLiteral "hard"]) ].

Definition ChunkData : ty :=
  interface
    [ required "x" TNumber;
      required "z" TNumber;
      required "blocks" TUint8Array;
      required "metadata" TUint8Array;
      required "light" TUint8Array ].


Definition NetworkMessage : ty :=
  interface
    [ required "type" TString;
      required "payload" TAny;
      required "timestamp" TNumber ].

Definition AuthResponse : ty :=
  interface
    [ required "success" TBoolean;
      optional "token" TString;
      optional "player" Player;
      optional "error" TString ].

Definition WorldJoinResponse : ty :=
  interface
    [ required "success" TBoolean;
      optional "world" WorldInfo;
      optional "player" Player;
      optional "error" TString ].

End Types.

(* ================================================================= *)
(** * Element access of a Uint8Array

    The block, metadata and light arrays of a chunk are [Uint8Array]s.
    A write converts the number to an unsigned 8-bit integer (modulo 2^8);
    an index outside the array reads [undefined] and writes nothing. *)

Module Uint8Array.

Definition ToUint8 (n : Z) : Z := n mod 256.

Definition get (a : list Z) (i : nat) : option Z := nth_error a i.

Fixpoint set (a : list Z) (i : nat) (v : Z) : list Z :=
  match a, i with
  | [], _ => []
  | _ :: rest, O => ToUint8 v :: rest
  | b :: rest, S i' => b :: set rest i' v
  end.

End Uint8Array.

(* ================================================================= *)
(** * The codec of the wire format

    The repository declares the shape of a chunk ([Types.ChunkData],
    [Protocol.ChunkDataMessage]) and has no encoder or decoder.  The
    functions of this module are written from section 4.1 of the design
    document. *)

Module Codec.
Import Protocol.

(** Modelled from the spec: the [DecodeError] of the missing [decode],
    [decode(bytes) -> message | DecodeError]. *)
Inductive DecodeError : Type := MalformedPayload | UnknownMessageType.

(** Modelled from the spec: the chunk payload, whose encoder and decoder
    are missing from the repository.  It is the header (the coordinates
    and the format version) and the three arrays of [Types.ChunkData]:
    one unit per voxel of block ids, one byte per voxel of metadata, one
    byte per voxel of light (4 bits of sky light, 4 bits of block
    light). *)
Record ChunkPayload : Type :=
  { x : Z;
    z : Z;
    version : Z;
    blocks : list Z;
    metadata : list Z;
    light : list Z }.

(** Modelled from the spec: the chunk payload of the missing codec as the
    object that [Types.ChunkData] describes. *)
Definition to_ChunkData (c : ChunkPayload) : TS.value :=
  TS.VObject
    [ ("x", TS.VNumber (x c));
      ("z", TS.VNumber (z c));
      ("blocks", TS.VUint8Array (blocks c));
      ("metadata", TS.VUint8Array (metadata c));
      ("light", TS.VUint8Array (light c)) ].

(** Modelled from the spec: a decoded message, the result of the missing
    [decode].  Bulk spatial data has a fixed layout; a structured control
    message is a self-describing key-value record, kept here as the bytes
    of the record. *)
Inductive Message : Type :=
| ChunkFrame (c : ChunkPayload)
| RecordFrame (t : MessageType) (record : list Z).

(** ** A reader of bytes, with [MalformedPayload] when they run out *)

(** Modelled from the spec: the missing [decode] reads a buffer front to
    back; a reader takes a value off the front of the buffer and gives
    back the rest, or fails with a [DecodeError]. *)
Definition reader (A : Type) : Type := list Z -> DecodeError + (A * list Z).

(** Modelled from the spec: the reader of the missing [decode] that takes
    nothing. *)
Definition ret {A : Type} (a : A) : reader A := fun buf => inr (a, buf).

(** Modelled from the spec: one read of the missing [decode] after
    another; the first failure is the failure of the whole. *)
Definition bind {A B : Type} (r : reader A) (k : A -> reader B) : reader B :=
  fun buf =>
    match r buf with
    | inl e => inl e
    | inr (a, rest) => k a rest
    end.

Notation "v <- r ;; k" := (bind r (fun v => k))
  (at level 61, r at next level, right associativity).

(** Modelled from the spec: the next [n] bytes, for the missing [decode];
    a truncated buffer fails with [MalformedPayload]. *)
Definition bytes (n : nat) : reader (list Z) :=
  fun buf =>
    if (n <=? List.length buf)%nat
    then inr (firstn n buf, skipn n buf)
    else inl MalformedPayload.

(** Modelled from the spec: the end of the missing [decode]; a buffer
    longer than its layout is length-mismatched and fails with
    [MalformedPayload]. *)
Definition finish {A : Type} (r : reader A) (buf : list Z) : DecodeError + A :=
  match r buf with
  | inl e => inl e
  | inr (a, []) => inr a
  | inr (_, _ :: _) => inl MalformedPayload
  end.

(** ** Integers of the header

    The design document gives the parts of the header and their order.
    The widths are the choice of this model: a coordinate is a 32-bit
    two's complement integer, most significant byte first, and the format
    version is one byte. *)

(** Modelled from the spec: a coordinate of the header, for the missing
    [encode]. *)
Definition encode_int32 (n : Z) : list Z :=
  let u := n mod 2 ^ 32 in
  [ Z.shiftr u 24; Z.land (Z.shiftr u 16) 255;
    Z.land (Z.shiftr u 8) 255; Z.land u 255 ].

(** Modelled from the spec: the unsigned number of a run of bytes, most
    significant first, for the missing [decode]. *)
Definition unsigned (bs : list Z) : Z :=
  fold_left (fun acc b => Z.lor (Z.shiftl acc 8) b) bs 0.

(** Modelled from the spec: the two's complement reading of a 32-bit
    word, for the missing [decode]. *)
Definition signed32 (u : Z) : Z :=
  if u <? 2 ^ 31 then u else u - 2 ^ 32.

(** Modelled from the spec: a coordinate of the header, for the missing
    [decode]. *)
Definition int32 : reader Z :=
  bs <- bytes 4 ;; ret (signed32 (unsigned bs)).

(** Modelled from the spec: the format version of the header, for the
    missing [decode]. *)
Definition uint8 : reader Z :=
  bs <- bytes 1 ;; ret (unsigned bs).

(** Modelled from the spec: the coordinates that fit the header of the
    missing [encode]. *)
Definition is_int32 (n : Z) : bool := (- 2 ^ 31 <=? n) && (n <? 2 ^ 31).

(** ** The tag of a frame

    The type tag of a frame is one byte, the position of the type in
    [Protocol.MessageType]; the design document asks for a type tag and
    leaves its encoding open. *)

(** Modelled from the spec: the position of a type in the catalogue, for
    the type tag of the missing [encode]. *)
Fixpoint index_of (t : string) (l : list MessageType) (i : Z) : option Z :=
  match l with
  | [] => None
  | t' :: rest =>
      if String.eqb (MessageType_value t') t then Some i
      else index_of t rest (i + 1)
  end.

(** Modelled from the spec: the type tag that the missing [encode]
    writes. *)
Definition tag_byte (t : MessageType) : Z :=
  match index_of (MessageType_value t) MessageType_members 0 with
  | Some i => i
  | None => 255
  end.

(** Modelled from the spec: the type that the missing [decode] reads
    from a tag; a tag outside the catalogue is unknown. *)
Definition tag_of_byte (b : Z) : option MessageType :=
  if b <? 0 then None else nth_error MessageType_members (Z.to_nat b).

Section Chunk.

(** The number of voxels of a chunk: the length of each of its arrays
    is fixed by the chunk volume. *)
Variable volume : nat.

(** The layouts that the design document does not give: whether [payload]
    is a whole payload of the type [t], a self-describing key-value
    record for a control message, an entity batch of its fixed layout for
    bulk entity data.  A truncated or length-mismatched one is not. *)
Variable whole_payload : MessageType -> list Z -> bool.

(** Modelled from the spec: the valid chunk payloads, for the missing
    encoder.  The coordinates are integers that fit the header, the
    version fits its byte, each array has one unit per voxel and each
    unit is a byte, as the elements of the [Uint8Array]s of
    [Types.ChunkData] are. *)
Definition valid (c : ChunkPayload) : bool :=
  is_int32 (x c) && is_int32 (z c) && TS.is_uint8 (version c)
  && (List.length (blocks c) =? volume)%nat
  && (List.length (metadata c) =? volume)%nat
  && (List.length (light c) =? volume)%nat
  && forallb TS.is_uint8 (blocks c)
  && forallb TS.is_uint8 (metadata c)
  && forallb TS.is_uint8 (light c).

(** Modelled from the spec: [encode] on a chunk payload, missing from
    the repository.  Layout: header (coordinates, format version),
    block-id array, metadata array, light array. *)
Definition encode_chunk (c : ChunkPayload) : list Z :=
  encode_int32 (x c) ++ encode_int32 (z c) ++ [version c]
  ++ blocks c ++ metadata c ++ light c.

(** Modelled from the spec: the layout of a chunk payload as the missing
    [decode] reads it: header, block-id array, metadata array, light
    array. *)
Definition chunk_payload : reader ChunkPayload :=
  cx <- int32 ;;
  cz <- int32 ;;
  v <- uint8 ;;
  bs <- bytes volume ;;
  ms <- bytes volume ;;
  ls <- bytes volume ;;
  ret {| x := cx; z := cz; version := v;
         blocks := bs; metadata := ms; light := ls |}.

(** Modelled from the spec: [decode] on the bytes of a chunk payload,
    missing from the repository.  A truncated buffer and a buffer of
    another length fail with [MalformedPayload]. *)
Definition decode_chunk (buf : list Z) : DecodeError + ChunkPayload :=
  finish chunk_payload buf.

(** Modelled from the spec: the length of the fixed layout of a chunk
    payload, for the missing codec: 4 + 4 + 1 bytes of header and three
    arrays of one byte per voxel. *)
Definition chunk_payload_size : nat := 9 + 3 * volume.

(** Modelled from the spec: [encode(message) -> bytes], missing from the
    repository: the type tag, then the payload. *)
Definition encode (m : Message) : list Z :=
  match m with
  | ChunkFrame c => tag_byte CHUNK_DATA :: encode_chunk c
  | RecordFrame t record => tag_byte t :: record
  end.

(** Modelled from the spec: [decode(bytes) -> message | DecodeError],
    missing from the repository.  An unknown type tag fails with
    [UnknownMessageType]; a truncated or length-mismatched buffer fails
    with [MalformedPayload], for chunk data by the fixed layout above and
    for the other types by [whole_payload]. *)
Definition decode (buf : list Z) : DecodeError + Message :=
  match buf with
  | [] => inl MalformedPayload
  | tag :: payload =>
      match tag_of_byte tag with
      | None => inl UnknownMessageType
      | Some CHUNK_DATA =>
          match decode_chunk payload with
          | inl e => inl e
          | inr c => inr (ChunkFrame c)
          end
      | Some t =>
          if whole_payload t payload then inr (RecordFrame t payload)
          else inl MalformedPayload
      end
  end.

End Chunk.

End Codec.

(* ================================================================= *)
(** * The connection session

    The repository declares the messages of a session and has no handler
    for them.  The state machine of this module is written from sections
    4.4 and 7 of the design document; what the messages carry is read from
    [Protocol]. *)

Module Session.
Import TS Protocol.

(** Modelled from the spec: the states of the missing ConnectionSession,
    [Unauthenticated -> Authenticated -> WorldJoined -> Disconnected],
    the last one terminal. *)
Inductive State : Type :=
| Unauthenticated | Authenticated | WorldJoined | Disconnected.

(** Modelled from the spec: the error taxonomy of section 7, missing
    from the repository. *)
Inductive Error : Type :=
| MalformedPayload | UnknownMessageType | InvalidState | OutOfBounds
| NotFound | GenerationFailure | Timeout.

(** Modelled from the spec: the text of the [error] message that the
    missing session sends, the name of the error in the taxonomy. *)
Definition error_text (e : Error) : string :=
  match e with
  | MalformedPayload => "MalformedPayload"
  | UnknownMessageType => "UnknownMessageType"
  | InvalidState => "InvalidState"
  | OutOfBounds => "OutOfBounds"
  | NotFound => "NotFound"
  | GenerationFailure => "GenerationFailure"
  | Timeout => "Timeout"
  end.

(** Modelled from the spec: the two errors of the missing [decode] in
    the taxonomy. *)
Definition of_decode_error (e : Codec.DecodeError) : Error :=
  match e with
  | Codec.MalformedPayload => MalformedPayload
  | Codec.UnknownMessageType => UnknownMessageType
  end.

(** Modelled from the spec: what the missing session keeps for the
    transitions below: its state, the decoding errors counted against
    the rate threshold, and the number of messages it has sent (each sent
    message takes the next message id). *)
Record Session : Type :=
  { state : State;
    recent_errors : nat;
    sent : nat }.

(** Modelled from the spec: what happens to the missing session. *)
Inductive Event : Type :=
| Receive (m : value)                       (* a decoded message *)
| DecodeFailure (e : Codec.DecodeError)     (* a frame that decode refused *)
| RateWindowElapsed                         (* the error rate window restarts *)
| Disconnect                                (* network failure, explicit close *)
| Silence.                                  (* no traffic for the configured timeout *)

(** Modelled from the spec: the terminal state of the missing
    ConnectionSession. *)
Definition is_terminal (st : State) : bool :=
  match st with Disconnected => true | _ => false end.

(** Modelled from the spec: the type tag of a received message, by which
    the missing session accepts or rejects it. *)
Definition type_of (m : value) : option MessageType :=
  match get m "type" with
  | Some (VString s) =>
      find (fun t => String.eqb (MessageType_value t) s) MessageType_members
  | _ => None
  end.

Section Machine.

(** The collaborators and the configuration of a session: the
    verification of credentials, the worlds that exist, the messages
    allowed in each state besides the ones of the transitions, the error
    rate threshold, whether the caller closes a session whose errors
    exceed it (the design document lets the caller: it "may close the
    session"), the numeric code of each error, and the message ids of the
    messages that the session sends. *)
Variable verify_credentials : string -> string -> bool.
Variable world_exists : string -> bool.
Variable allowed : State -> MessageType -> bool.
Variable error_threshold : nat.
Variable closes_on_excess : bool.
Variable error_code : Error -> Z.
Variable message_id : nat -> string.

(** Modelled from the spec: the envelope of a message that the missing
    session sends: type tag, message id, timestamp, then the payload. *)
Definition envelope (t : MessageType) (s : Session) (timestamp : Z)
           (payload : list (string * value)) : value :=
  VObject
    (("type", VString (MessageType_value t))
       :: ("id", VString (message_id (sent s)))
       :: ("timestamp", VNumber timestamp)
       :: payload).

(** Modelled from the spec: the PONG of the missing session; its timestamp
    is the one of the PING. *)
Definition pong (s : Session) (echoed : Z) : value :=
  envelope PONG s echoed [].

(** Modelled from the spec: the [error] message of the missing session,
    with the numeric code of the error. *)
Definition error_message (s : Session) (now : Z) (e : Error) : value :=
  envelope ERROR s now
    [ ("error", VString (error_text e));
      ("code", VNumber (error_code e)) ].

(** Modelled from the spec: the answer of the missing session to an
    [auth_request]. *)
Definition auth_response (s : Session) (now : Z) (success : bool) : value :=
  envelope AUTH_RESPONSE s now [ ("success", VBoolean success) ].

(** Modelled from the spec: the answer of the missing session to a
    [world_join_request]. *)
Definition world_join_response (s : Session) (now : Z) (success : bool) : value :=
  envelope WORLD_JOIN_RESPONSE s now [ ("success", VBoolean success) ].

(** Modelled from the spec: the missing session sends [m] and moves to
    [st]. *)
Definition send (s : Session) (st : State) (m : value) : Session * list value :=
  ({| state := st; recent_errors := recent_errors s; sent := S (sent s) |}, [m]).

(** Modelled from the spec: the missing session moves to
    [Disconnected]. *)
Definition close (s : Session) : Session * list value :=
  ({| state := Disconnected; recent_errors := recent_errors s; sent := sent s |}, []).

(** Modelled from the spec: the missing session on a message not
    permitted in its state: an error response, and no change of state. *)
Definition refuse (s : Session) (now : Z) : Session * list value :=
  send s (state s) (error_message s now InvalidState).

(** Modelled from the spec: the missing session on a decoding error: the
    message is discarded and an error message with a numeric code is sent
    back; the session is not closed unless the errors exceed the rate
    threshold, and then the caller may close it. *)
Definition reject (s : Session) (now : Z) (e : Error) : Session * list value :=
  let n := S (recent_errors s) in
  ({| state := if (error_threshold <? n)%nat && closes_on_excess
               then Disconnected else state s;
      recent_errors := n;
      sent := S (sent s) |},
   [error_message s now e]).

(** Modelled from the spec: the missing session on a decoded message.
    PING is answered in every state; a valid [auth_request] moves
    [Unauthenticated] to [Authenticated] and an invalid one keeps the
    state, with an auth failure response; a [world_join_request] for a
    world that exists moves [Authenticated] to [WorldJoined]; a
    [world_leave_request] moves [WorldJoined] to [Disconnected]; any other
    message is accepted if the state allows it and refused otherwise. *)
Definition receive (s : Session) (now : Z) (m : value) : Session * list value :=
  match type_of m with
  | None => reject s now UnknownMessageType
  | Some t =>
      match state s, t with
      | _, PING =>
          match get m "timestamp" with
          | Some (VNumber sent_at) => send s (state s) (pong s sent_at)
          | _ => reject s now MalformedPayload
          end
      | Unauthenticated, AUTH_REQUEST =>
          match get m "username", get m "password" with
          | Some (VString username), Some (VString password) =>
              if verify_credentials username password
              then send s Authenticated (auth_response s now true)
              else send s Unauthenticated (auth_response s now false)
          | _, _ => reject s now MalformedPayload
          end
      | Authenticated, WORLD_JOIN_REQUEST =>
          match get m "worldId" with
          | Some (VString world) =>
              if world_exists world
              then send s WorldJoined (world_join_response s now true)
              else send s Authenticated (world_join_response s now false)
          | _ => reject s now MalformedPayload
          end
      | WorldJoined, WORLD_LEAVE_REQUEST => close s
      | st, _ => if allowed st t then (s, []) else refuse s now
      end
  end.

(** Modelled from the spec: one step of the missing ConnectionSession.
    A disconnected session does nothing; a disconnect or a timeout
    closes the session from every state; a PING is answered in every
    other state with a PONG that echoes its timestamp. *)
Definition step (now : Z) (s : Session) (ev : Event) : Session * list value :=
  if is_terminal (state s) then (s, [])
  else
    match ev with
    | Receive m => receive s now m
    | DecodeFailure e => reject s now (of_decode_error e)
    | RateWindowElapsed =>
        ({| state := state s; recent_errors := 0; sent := sent s |}, [])
    | Disconnect | Silence => close s
    end.

End Machine.

End Session.

(* ================================================================= *)
(** * Example values *)

Module Examples.
Import TS.

Definition chat_message : value :=
  VObject
    [ ("type", VString "chat_message");
      ("id", VString "m-17");
      ("timestamp", VNumber 1700000000000);
      ("sender", VString "alice");
      ("content", VString "hello");
      ("messageType", VString "system") ].

Definition chat_entry : value :=
  VObject
    [ ("id", VString "c-1");
      ("sender", VString "alice");
      ("content", VString "hello");
      ("timestamp", VString "2024-01-01T00:00:00Z");
      ("type", VString "command") ].

Definition world_create_request : value :=
  VObject
    [ ("type", VString "world_create_request");
      ("id", VString "m-3");
      ("timestamp", VNumber 1700000000000);
      ("name", VString "My World");
      ("seed", VNumber 12345);
      ("gameMode", VString "hardcore");
      ("settings", VUndefined) ].

Definition player_in (mode : string) : value :=
  VObject
    [ ("id", VString "p-1");
      ("username", VString "alice");
      ("position", VArray [VNumber 0; VNumber 64; VNumber 0]);
      ("rotation", VArray [VNumber 0; VNumber 0; VNumber 0]);
      ("health", VNumber 20);
      ("maxHealth", VNumber 20);
      ("hunger", VNumber 20);
      ("maxHunger", VNumber 20);
      ("experience", VNumber 0);
      ("level", VNumber 1);
      ("inventory", VArray [VObject [("id", VNumber 3); ("count", VNumber 64)]]);
      ("selectedSlot", VNumber 0);
      ("gameMode", VString mode) ].

Definition player : value := player_in "creative".

Definition world_settings_in (mode : string) : value :=
  VObject
    [ ("name", VString "My World");
      ("seed", VNumber 12345);
      ("gameMode", VString mode);
      ("maxPlayers", VNumber 20);
      ("allowPvP", VBoolean false);
      ("allowMobGriefing", VBoolean true);
      ("keepInventory", VBoolean false);
      ("naturalRegeneration", VBoolean true);
      ("difficulty", VString "normal") ].

Definition world_settings : value := world_settings_in "survival".

Definition ping : value :=
  VObject
    [ ("type", VString "ping");
      ("id", VString "m-8");
      ("timestamp", VNumber 1700000000123) ].

Definition pong : value :=
  VObject
    [ ("type", VString "pong");
      ("id", VString "s-4");
      ("timestamp", VNumber 1700000000123) ].

(** An envelope of [types.ts]: a type, a payload and a timestamp. *)
Definition plain_envelope : value :=
  VObject
    [ ("type", VString "chat_message");
      ("payload", VString "hello");
      ("timestamp", VNumber 1700000000000) ].


Definition chunk_data (blocks : list Z) : value :=
  VObject
    [ ("type", VString "chunk_data");
      ("id", VString "s-5");
      ("timestamp", VNumber 1700000000000);
      ("x", VNumber 0);
      ("z", VNumber 0);
      ("blocks", VUint8Array blocks);
      ("metadata", VUint8Array [0; 0]);
      ("light", VUint8Array [240; 240]) ].

(** An envelope with the type tag [tag] and nothing else. *)
Definition envelope_of (tag : string) : value :=
  VObject
    [ ("type", VString tag);
      ("id", VString "m-1");
      ("timestamp", VNumber 1700000000000) ].

Definition block_update (block : Z) : value :=
  VObject
    [ ("type", VString "block_update");
      ("id", VString "m-2");
      ("timestamp", VNumber 1700000000000);
      ("x", VNumber 5);
      ("y", VNumber 10);
      ("z", VNumber 5);
      ("blockId", VNumber block) ].

Definition player_update : value :=
  VObject
    [ ("type", VString "player_update");
      ("id", VString "m-4");
      ("timestamp", VNumber 1700000000000);
      ("playerId", VString "p-1");
      ("position", VArray [VNumber 1; VNumber 64; VNumber 2]);
      ("rotation", VArray [VNumber 0; VNumber 90; VNumber 0]);
      ("health", VNumber 18) ].

Definition error_without_code : value :=
  VObject
    [ ("type", VString "error");
      ("id", VString "s-6");
      ("timestamp", VNumber 1700000000000);
      ("error", VString "world not found") ].

(** An [auth_response] whose [player] is [who]. *)
Definition auth_response (who : value) : value :=
  VObject
    [ ("type", VString "auth_response");
      ("id", VString "s-7");
      ("timestamp", VNumber 1700000000000);
      ("success", VBoolean true);
      ("token", VString "t0k3n");
      ("player", who) ].

Definition world_info : value :=
  VObject
    [ ("id", VString "w-1");
      ("name", VString "My World");
      ("seed", VNumber 12345);
      ("gameMode", VString "survival");
      ("playerCount", VNumber 1);
      ("maxPlayers", VNumber 20);
      ("createdAt", VString "2024-01-01T00:00:00Z");
      ("lastActive", VString "2024-01-02T00:00:00Z");
      ("isOnline", VBoolean true) ].

(** A [world_join_response] with the world [world] and the player [who]. *)
Definition world_join_response (world who : value) : value :=
  VObject
    [ ("type", VString "world_join_response");
      ("id", VString "s-8");
      ("timestamp", VNumber 1700000000000);
      ("success", VBoolean true);
      ("world", world);
      ("player", who) ].

(** A chunk of two voxels at the column (-3, 7). *)
Definition chunk : Codec.ChunkPayload :=
  {| Codec.x := -3; Codec.z := 7; Codec.version := 1;
     Codec.blocks := [0; 255];
     Codec.metadata := [0; 4];
     Codec.light := [240; 15] |}.

(** The payloads of the types other than chunk data: here, a payload is
    whole when it has at least one byte. *)
Definition whole_payload (t : Protocol.MessageType) (payload : list Z) : bool :=
  negb (List.length payload =? 0)%nat.

(** A session configuration: one account, one world, three decoding
    errors tolerated, a caller that closes on more, the codes of the
    errors in the order of the taxonomy. *)
Definition verify_credentials (username password : string) : bool :=
  String.eqb username "alice" && String.eqb password "secret".

Definition world_exists (world : string) : bool := String.eqb world "w-1".

Definition allowed (st : Session.State) (t : Protocol.MessageType) : bool :=
  match st, t with
  | Session.WorldJoined, Protocol.CHUNK_REQUEST => true
  | Session.WorldJoined, Protocol.BLOCK_UPDATE => true
  | Session.WorldJoined, Protocol.CHAT_MESSAGE => true
  | Session.Authenticated, Protocol.WORLD_LIST_REQUEST => true
  | _, _ => false
  end.

Definition error_threshold : nat := 3.

Definition closes_on_excess : bool := true.

Definition error_code (e : Session.Error) : Z :=
  match e with
  | Session.MalformedPayload => 1
  | Session.UnknownMessageType => 2
  | Session.InvalidState => 3
  | Session.OutOfBounds => 4
  | Session.NotFound => 5
  | Session.GenerationFailure => 6
  | Session.Timeout => 7
  end.

Definition message_id (n : nat) : string :=
  String.append "s-" (String (Ascii.ascii_of_nat (48 + n mod 10)) EmptyString).

Definition step : Z -> Session.Session -> Session.Event -> Session.Session * list value :=
  Session.step verify_credentials world_exists allowed error_threshold
               closes_on_excess error_code message_id.

Definition fresh (st : Session.State) : Session.Session :=
  {| Session.state := st; Session.recent_errors := 0; Session.sent := 0 |}.

End Examples.

(* ================================================================= *)
(** * Facts about conformance *)

Section ConformsFacts.
Import TS.

Lemma conforms_object_inv (m : value) (props : list property) :
  conforms m (TObject props) = true ->
  exists properties, m = VObject properties.
Proof.
  destruct m; simpl; try discriminate.
  intros _. eexists; reflexivity.
Qed.

(** A required property of a conforming object is there, with a value of
    the declared type. *)
Lemma conforms_required (m : value) (props : list property) (name : string) (t : ty) :
  conforms m (TObject props) = true ->
  In (Property name false t) props ->
  exists v, get m name = Some v /\ conforms v t = true.
Proof.
  intros Hm Hin.
  destruct m; simpl in Hm; try discriminate.
  rewrite forallb_forall in Hm.
  specialize (Hm _ Hin). simpl in Hm.
  destruct (lookup name properties) as [v|] eqn:Hv; [|discriminate].
  exists v. split; [assumption|].
  destruct v; assumption.
Qed.

Lemma conforms_literal (v : value) (s : string) :
  conforms v (TLiteral s) = true -> v = VString s.
Proof.
  destruct v; simpl; try discriminate.
  intros H. apply String.eqb_eq in H. now subst.
Qed.

(** A value of a union of string literals is one of the strings. *)
Lemma conforms_literals (v : value) (strings : list string) :
  conforms v (TUnion (map TLiteral strings)) = true ->
  exists s, v = VString s /\ In s strings.
Proof.
  simpl. intros H.
  apply existsb_exists in H. destruct H as [a [Hin Ha]].
  apply in_map_iff in Hin. destruct Hin as [s [<- Hs]].
  exists s. split; [now apply conforms_literal|assumption].
Qed.

Lemma conforms_number (v : value) :
  conforms v TNumber = true -> exists n, v = VNumber n.
Proof. destruct v; simpl; try discriminate. intros _. eexists; reflexivity. Qed.

Lemma conforms_string (v : value) :
  conforms v TString = true -> exists s, v = VString s.
Proof. destruct v; simpl; try discriminate. intros _. eexists; reflexivity. Qed.

Lemma conforms_uint8array (v : value) :
  conforms v TUint8Array = true ->
  exists elements, v = VUint8Array elements /\ forall b, In b elements -> 0 <= b <= 255.
Proof.
  destruct v; simpl; try discriminate.
  intros H. exists elements. split; [reflexivity|].
  intros b Hb. rewrite forallb_forall in H. specialize (H b Hb).
  unfold is_uint8 in H. lia.
Qed.

End ConformsFacts.

(* ================================================================= *)
(** * The kinds of a chat message *)

Section Chat.
Import TS.

(** C8.  The [messageType] of a well-formed chat message of the protocol
    is one of 'chat', 'system' and 'command', and each of the three is
    the kind of some well-formed chat message; the [type] of a
    [ChatMessage] of [types.ts] is declared with the same closed set. *)
Theorem chat_kind_is_closed :
  (forall m, conforms m Protocol.ChatMessageMessage = true ->
     exists kind, get m "messageType" = Some (VString kind)
                  /\ In kind ["chat"; "system"; "command"])
  /\ (forall m, conforms m Types.ChatMessage = true ->
        exists kind, get m "type" = Some (VString kind)
                     /\ In kind ["chat"; "system"; "command"])
  /\ (forall kind, In kind ["chat"; "system"; "command"] ->
        exists m, conforms m Protocol.ChatMessageMessage = true
                  /\ get m "messageType" = Some (VString kind))
  /\ option_map prop_type (find_prop "messageType" (props_of Protocol.ChatMessageMessage))
     = option_map prop_type (find_prop "type" (props_of Types.ChatMessage)).
Proof.
  split; [|split; [|split]].
  - intros m Hm.
    destruct (conforms_required m _ "messageType"
                (TUnion (map TLiteral ["chat"; "system"; "command"])) Hm)
      as [v [Hget Hv]].
    { vm_compute. tauto. }
    apply conforms_literals in Hv. destruct Hv as [s [-> Hs]].
    exists s. split; assumption.
  - intros m Hm.
    destruct (conforms_required m _ "type"
                (TUnion (map TLiteral ["chat"; "system"; "command"])) Hm)
      as [v [Hget Hv]].
    { vm_compute. tauto. }
    apply conforms_literals in Hv. destruct Hv as [s [-> Hs]].
    exists s. split; assumption.
  - intros kind Hk.
    exists (VObject
              [ ("type", VString "chat_message");
                ("id", VString "m");
                ("timestamp", VNumber 0);
                ("sender", VString "s");
                ("content", VString "c");
                ("messageType", VString kind) ]).
    simpl in Hk.
    destruct Hk as [<-|[<-|[<-|[]]]]; split; reflexivity.
  - reflexivity.
Qed.

Lemma chat_kind_is_closed_witness :
  conforms Examples.chat_message Protocol.ChatMessageMessage = true
  /\ conforms Examples.chat_entry Types.ChatMessage = true
  /\ (exists kind, get Examples.chat_message "messageType" = Some (VString kind)
                   /\ In kind ["chat"; "system"; "command"])
  /\ (exists kind, get Examples.chat_entry "type" = Some (VString kind)
                   /\ In kind ["chat"; "system"; "command"]).
Proof.
  split; [reflexivity|]. split; [reflexivity|].
  split.
  - apply (proj1 chat_kind_is_closed Examples.chat_message). reflexivity.
  - apply (proj1 (proj2 chat_kind_is_closed) Examples.chat_entry). reflexivity.
Defined.

End Chat.

(* ================================================================= *)
(** * Game modes on the wire *)

Section GameModes.
Import TS.

Lemma conforms_GameMode (v : value) :
  conforms v Types.GameMode_type = true ->
  exists g, v = VString (Types.GameMode_value g).
Proof.
  intros H.
  change Types.GameMode_type
    with (TUnion (map TLiteral ["survival"; "creative"])) in H.
  apply conforms_literals in H. destruct H as [s [-> Hs]].
  simpl in Hs. destruct Hs as [<-|[<-|[]]].
  - exists Types.SURVIVAL. reflexivity.
  - exists Types.CREATIVE. reflexivity.
Qed.

(** C9.  Some well-formed [world_create_request] has a [gameMode] that is
    neither 'survival' nor 'creative': the message declares the property
    as a string.  The [gameMode] of every well-formed [Player] and of
    every well-formed [WorldSettings] is the value of a member of
    [GameMode]; those values are the two, and each of the two is the
    [gameMode] of some well-formed [Player] and [WorldSettings]. *)
Theorem world_create_request_gameMode_is_any_string :
  (exists m mode,
      conforms m Protocol.WorldCreateRequestMessage = true
      /\ get m "gameMode" = Some (VString mode)
      /\ mode <> "survival" /\ mode <> "creative")
  /\ find_prop "gameMode" (props_of Protocol.WorldCreateRequestMessage)
     = Some (required "gameMode" TString)
  /\ (forall p, conforms p Types.Player = true ->
        exists g, get p "gameMode" = Some (VString (Types.GameMode_value g)))
  /\ (forall w, conforms w Types.WorldSettings = true ->
        exists g, get w "gameMode" = Some (VString (Types.GameMode_value g)))
  /\ (forall g, Types.GameMode_value g = "survival"
                \/ Types.GameMode_value g = "creative")
  /\ (forall g, exists p w,
        conforms p Types.Player = true
        /\ get p "gameMode" = Some (VString (Types.GameMode_value g))
        /\ conforms w Types.WorldSettings = true
        /\ get w "gameMode" = Some (VString (Types.GameMode_value g))).
Proof.
  split; [|split; [|split; [|split; [|split]]]].
  - exists Examples.world_create_request, "hardcore".
    repeat split; try reflexivity; discriminate.
  - reflexivity.
  - intros p Hp.
    destruct (conforms_required p _ "gameMode" Types.GameMode_type Hp)
      as [v [Hget Hv]].
    { vm_compute. tauto. }
    apply conforms_GameMode in Hv. destruct Hv as [g ->].
    exists g. assumption.
  - intros w Hw.
    destruct (conforms_required w _ "gameMode" Types.GameMode_type Hw)
      as [v [Hget Hv]].
    { vm_compute. tauto. }
    apply conforms_GameMode in Hv. destruct Hv as [g ->].
    exists g. assumption.
  - intros []; [left|right]; reflexivity.
  - intros g.
    exists (Examples.player_in (Types.GameMode_value g)),
           (Examples.world_settings_in (Types.GameMode_value g)).
    destruct g; repeat split; reflexivity.
Qed.

Lemma world_create_request_gameMode_is_any_string_witness :
  conforms Examples.player Types.Player = true
  /\ conforms Examples.world_settings Types.WorldSettings = true
  /\ (exists g, get Examples.player "gameMode"
                = Some (VString (Types.GameMode_value g)))
  /\ (exists g, get Examples.world_settings "gameMode"
                = Some (VString (Types.GameMode_value g))).
Proof.
  split; [reflexivity|]. split; [reflexivity|].
  destruct world_create_request_gameMode_is_any_string
    as [_ [_ [Hplayer [Hsettings _]]]].
  split.
  - apply (Hplayer Examples.player). reflexivity.
  - apply (Hsettings Examples.world_settings). reflexivity.
Defined.

End GameModes.

(* ================================================================= *)
(** * The timestamp of a PONG *)

Section Pong.
Import TS.

(** C10.  [PongMessage] declares [timestamp] again, with the type that
    [BaseMessage] gives it, and adds no property to the envelope: its
    properties are [id], [type] (the tag 'pong') and [timestamp], and
    [timestamp] is the only number among them.  So a well-formed PONG
    carries one time value: the timestamp read from it as a [BaseMessage]
    and the one read from it as a [PongMessage] are the same number, and
    every declared property of a PONG that holds a number holds that
    one. *)
Theorem pong_carries_one_timestamp :
  Protocol.PongMessage
  = interface_extends Protocol.BaseMessage
      [ required "type" (Protocol.member Protocol.PONG);
        required "timestamp" TNumber ]
  /\ props_of Protocol.PongMessage
     = [ required "id" TString;
         required "type" (Protocol.member Protocol.PONG);
         required "timestamp" TNumber ]
  /\ forallb (fun p => declares (prop_name p) (props_of Protocol.BaseMessage))
             (props_of Protocol.PongMessage) = true
  /\ existsb (number_besides ["timestamp"]) (props_of Protocol.PongMessage) = false
  /\ filter (fun p => String.eqb (prop_name p) "timestamp")
            (props_of Protocol.PongMessage)
     = [required "timestamp" TNumber]
  /\ find_prop "timestamp" (props_of Protocol.PongMessage)
     = find_prop "timestamp" (props_of Protocol.BaseMessage)
  /\ (forall m, conforms m Protocol.PongMessage = true ->
        exists t,
          read Protocol.BaseMessage m "timestamp" = Some (VNumber t)
          /\ read Protocol.PongMessage m "timestamp" = Some (VNumber t)
          /\ (forall sent_at echoed,
                read Protocol.BaseMessage m "timestamp" = Some sent_at ->
                read Protocol.PongMessage m "timestamp" = Some echoed ->
                sent_at = echoed)
          /\ (forall name o,
                In (Property name o TNumber) (props_of Protocol.PongMessage) ->
                read Protocol.PongMessage m name = Some (VNumber t))).
Proof.
  split; [reflexivity|]. split; [reflexivity|]. split; [reflexivity|].
  split; [reflexivity|]. split; [reflexivity|]. split; [reflexivity|].
  intros m Hm.
  destruct (conforms_required m _ "timestamp" TNumber Hm) as [v [Hget Hv]].
  { vm_compute. tauto. }
  apply conforms_number in Hv. destruct Hv as [t ->].
  exists t.
  change (read Protocol.BaseMessage m "timestamp") with (get m "timestamp").
  change (read Protocol.PongMessage m "timestamp") with (get m "timestamp").
  split; [assumption|]. split; [assumption|]. split.
  - intros sent_at echoed H1 H2. congruence.
  - intros name o Hin. simpl in Hin.
    destruct Hin as [Hin|[Hin|[Hin|[]]]]; try discriminate Hin.
    injection Hin as <- <-. exact Hget.
Qed.

Lemma pong_carries_one_timestamp_witness :
  conforms Examples.pong Protocol.PongMessage = true
  /\ exists t,
       read Protocol.BaseMessage Examples.pong "timestamp" = Some (VNumber t)
       /\ read Protocol.PongMessage Examples.pong "timestamp" = Some (VNumber t).
Proof.
  split; [reflexivity|].
  destruct (proj2 (proj2 (proj2 (proj2 (proj2 (proj2 pong_carries_one_timestamp)))))
              Examples.pong)
    as [t [H1 [H2 _]]]; [reflexivity|].
  exists t. split; assumption.
Defined.

End Pong.

(* ================================================================= *)
(** * The catalogue of tags and the union of shapes *)

Section Catalogue.
Import TS Protocol.

(** C2.  The tag [entity_spawn] of the catalogue keys no member of the
    union [NetworkMessage], and neither do eleven more of the thirty-two
    tags.  No tag keys two members: each of the other twenty tags keys
    exactly one. *)
Theorem catalogue_tags_without_a_shape :
  shapes_of ENTITY_SPAWN = []
  /\ filter (fun t => negb (List.length (shapes_of t) =? 1)%nat) MessageType_members
     = [ WORLD_LEAVE_REQUEST; WORLD_DELETE_REQUEST; PLAYER_INVENTORY_UPDATE;
         ENTITY_SPAWN; ENTITY_UPDATE; ENTITY_DESPAWN;
         CRAFTING_REQUEST; CRAFTING_RESPONSE; INVENTORY_ACTION;
         HEALTH_UPDATE; EXPERIENCE_UPDATE; SERVER_STATS ]
  /\ forallb (fun t => (List.length (shapes_of t) <=? 1)%nat) MessageType_members = true
  /\ forallb (fun shape => existsb (fun t => keyed_by t shape) MessageType_members)
             NetworkMessage_members = true
  /\ List.length MessageType_members = 32%nat
  /\ List.length NetworkMessage_members = 20%nat.
Proof. repeat split; reflexivity. Qed.

(** C3.  The envelope of [types.ts], [NetworkMessage], declares a type, a
    payload and a timestamp and no message id, and an envelope without an
    id is well formed for it; [BaseMessage] of [protocol.ts] and every
    member of the union declare [id: string]. *)
Theorem plain_envelope_has_no_message_id :
  map prop_name (props_of Types.NetworkMessage) = ["type"; "payload"; "timestamp"]
  /\ declares "id" (props_of Types.NetworkMessage) = false
  /\ conforms Examples.plain_envelope Types.NetworkMessage = true
  /\ get Examples.plain_envelope "id" = None
  /\ map prop_name (props_of BaseMessage) = ["type"; "id"; "timestamp"]
  /\ forallb (fun shape =>
                match find_prop "id" (props_of (snd shape)) with
                | Some (Property _ false TString) => true
                | _ => false
                end)
             (("BaseMessage", BaseMessage) :: NetworkMessage_members) = true.
Proof. repeat split; reflexivity. Qed.

End Catalogue.

(* ================================================================= *)
(** * The entity *)

Section Entity.
Import TS.




End Entity.

(* ================================================================= *)
(** * The block-id unit of a chunk *)

Section BlockUnit.
Import TS.

Lemma ToUint8_range (v : Z) : 0 <= Uint8Array.ToUint8 v <= 255.
Proof. unfold Uint8Array.ToUint8. pose proof (Z.mod_pos_bound v 256). lia. Qed.

Lemma ToUint8_small (v : Z) : 0 <= v <= 255 -> Uint8Array.ToUint8 v = v.
Proof. intros H. unfold Uint8Array.ToUint8. apply Z.mod_small. lia. Qed.

Lemma get_set_same (a : list Z) (i : nat) (v : Z) :
  (i < List.length a)%nat ->
  Uint8Array.get (Uint8Array.set a i v) i = Some (Uint8Array.ToUint8 v).
Proof.
  revert i. induction a as [|b a IH]; intros i Hi; simpl in Hi.
  - lia.
  - destruct i as [|i]; simpl.
    + reflexivity.
    + apply IH. lia.
Qed.

Lemma set_keeps_uint8 (a : list Z) (i : nat) (v : Z) :
  forallb is_uint8 a = true ->
  forallb is_uint8 (Uint8Array.set a i v) = true.
Proof.
  revert i. induction a as [|b a IH]; intros i Ha; simpl in *.
  - reflexivity.
  - apply andb_true_iff in Ha. destruct Ha as [Hb Ha].
    destruct i as [|i]; simpl.
    + rewrite Ha, andb_true_r. unfold is_uint8.
      pose proof (ToUint8_range v). apply andb_true_iff. split; lia.
    + rewrite Hb. simpl. now apply IH.
Qed.

(** C1, as stated, fails at the block id 4095: written to an element of
    the block array it reads back as 255, a chunk_data message whose block
    array holds 4095 is not well formed, and no well-formed chunk_data
    message has 4095 among its blocks. *)
Lemma block_id_4095_does_not_fit :
  Uint8Array.get (Uint8Array.set [0; 0] 0 4095) 0 = Some 255
  /\ conforms (Examples.chunk_data [4095; 0]) Protocol.ChunkDataMessage = false
  /\ ~ (exists m blocks,
          conforms m Protocol.ChunkDataMessage = true
          /\ get m "blocks" = Some (VUint8Array blocks)
          /\ In 4095 blocks).
Proof.
  split; [reflexivity|]. split; [reflexivity|].
  intros [m [blocks [Hm [Hget Hin]]]].
  destruct (conforms_required m _ "blocks" TUint8Array Hm) as [v [Hv Hc]].
  { vm_compute. tauto. }
  apply conforms_uint8array in Hc. destruct Hc as [elements [-> Hrange]].
  rewrite Hget in Hv. injection Hv as <-.
  specialize (Hrange 4095 Hin). lia.
Qed.

(** C1, amended.  The block-id array of a well-formed chunk, as a
    [ChunkDataMessage] or as a [ChunkData], is a [Uint8Array]: each of its
    elements is in 0..=255, each element can hold any block id in 0..=255
    (the array stays well formed and the id reads back), and a larger id
    is kept modulo 256. *)
Theorem block_unit_holds_a_byte :
  forall m,
    conforms m Protocol.ChunkDataMessage = true
    \/ conforms m Types.ChunkData = true ->
    exists blocks,
      get m "blocks" = Some (VUint8Array blocks)
      /\ (forall b, In b blocks -> 0 <= b <= 255)
      /\ (forall i id, (i < List.length blocks)%nat -> 0 <= id <= 255 ->
            Uint8Array.get (Uint8Array.set blocks i id) i = Some id
            /\ conforms (VUint8Array (Uint8Array.set blocks i id)) TUint8Array = true)
      /\ (forall i id, (i < List.length blocks)%nat ->
            Uint8Array.get (Uint8Array.set blocks i id) i = Some (id mod 256)).
Proof.
  intros m Hm.
  assert (H : exists v, get m "blocks" = Some v /\ conforms v TUint8Array = true).
  { destruct Hm as [Hm|Hm].
    - apply (conforms_required m _ "blocks" TUint8Array Hm). vm_compute. tauto.
    - apply (conforms_required m _ "blocks" TUint8Array Hm). vm_compute. tauto. }
  destruct H as [v [Hget Hv]].
  pose proof Hv as Hall.
  apply conforms_uint8array in Hv. destruct Hv as [blocks [-> Hrange]].
  exists blocks. split; [assumption|]. split; [assumption|]. split.
  - intros i id Hi Hid. split.
    + rewrite get_set_same by assumption. now rewrite ToUint8_small.
    + simpl. simpl in Hall. now apply set_keeps_uint8.
  - intros i id Hi. now rewrite get_set_same.
Qed.

Lemma block_unit_holds_a_byte_witness :
  conforms (Examples.chunk_data [0; 7]) Protocol.ChunkDataMessage = true
  /\ exists blocks,
       get (Examples.chunk_data [0; 7]) "blocks" = Some (VUint8Array blocks)
       /\ Uint8Array.get (Uint8Array.set blocks 1 255) 1 = Some 255.
Proof.
  split; [reflexivity|].
  destruct (block_unit_holds_a_byte (Examples.chunk_data [0; 7]))
    as [blocks [Hget [_ [Hfit _]]]]; [left; reflexivity|].
  exists blocks. split; [assumption|].
  apply Hfit; [|lia].
  injection Hget as <-. simpl. lia.
Defined.

End BlockUnit.

(* ================================================================= *)
(** * The codec: integers of the header *)

Section Int32.
Import Codec.

Lemma lor_shiftl_byte (a b : Z) :
  0 <= b < 256 -> Z.lor (Z.shiftl a 8) b = a * 256 + b.
Proof.
  intros Hb.
  assert (Hland : Z.land (Z.shiftl a 8) b = 0).
  { apply Z.bits_inj'. intros n Hn.
    rewrite Z.land_spec, Z.bits_0.
    destruct (Z.ltb_spec n 8).
    - rewrite Z.shiftl_spec_low by assumption. reflexivity.
    - replace b with (b mod 2 ^ 8) by (apply Z.mod_small; lia).
      rewrite Z.mod_pow2_bits_high by lia. apply andb_false_r. }
  pose proof (Z.add_lor_land (Z.shiftl a 8) b) as H.
  rewrite Hland in H. rewrite Z.shiftl_mul_pow2 in * by (clear; lia).
  change (2 ^ 8) with 256 in *. lia.
Qed.

Lemma land_255 (a : Z) : Z.land a 255 = a mod 256.
Proof. change 255 with (Z.ones 8). rewrite Z.land_ones by lia. reflexivity. Qed.

(** The four bytes of a 32-bit word, most significant first. *)
Lemma split_word (u : Z) :
  0 <= u < 4294967296 ->
  ((u / 16777216 * 256 + (u / 65536) mod 256) * 256 + (u / 256) mod 256) * 256
  + u mod 256 = u
  /\ 0 <= u / 16777216 < 256.
Proof.
  intros Hu.
  pose proof (Z.div_mod u 256 ltac:(lia)) as H0.
  pose proof (Z.mod_pos_bound u 256 ltac:(lia)) as B0.
  pose proof (Z.div_mod (u / 256) 256 ltac:(lia)) as H1.
  pose proof (Z.mod_pos_bound (u / 256) 256 ltac:(lia)) as B1.
  pose proof (Z.div_mod (u / 256 / 256) 256 ltac:(lia)) as H2.
  pose proof (Z.mod_pos_bound (u / 256 / 256) 256 ltac:(lia)) as B2.
  replace (u / 65536) with (u / 256 / 256)
    by (rewrite Z.div_div by lia; reflexivity).
  replace (u / 16777216) with (u / 256 / 256 / 256)
    by (rewrite !Z.div_div by lia; reflexivity).
  split; [lia|]. split.
  - repeat apply Z.div_pos; lia.
  - repeat (apply Z.div_lt_upper_bound; [lia|]). lia.
Qed.

Lemma signed32_unsigned_encode (n : Z) :
  - 2147483648 <= n < 2147483648 ->
  signed32 (unsigned (encode_int32 n)) = n.
Proof.
  intros Hn. unfold encode_int32, unsigned. cbv zeta. cbn [fold_left].
  rewrite !land_255, !Z.shiftr_div_pow2 by lia.
  change (2 ^ 24) with 16777216. change (2 ^ 16) with 65536.
  change (2 ^ 8) with 256. change (2 ^ 32) with 4294967296.
  set (u := n mod 4294967296).
  assert (Hu : 0 <= u < 4294967296) by (apply Z.mod_pos_bound; lia).
  destruct (split_word u Hu) as [Hsum Htop].
  change (Z.shiftl 0 8) with 0. rewrite Z.lor_0_l.
  rewrite !lor_shiftl_byte by (try apply Z.mod_pos_bound; lia).
  rewrite Hsum. unfold signed32. change (2 ^ 31) with 2147483648.
  change (2 ^ 32) with 4294967296.
  subst u.
  destruct (Z.ltb_spec (n mod 4294967296) 2147483648) as [Hlt|Hge].
  - destruct (Z.le_gt_cases 0 n).
    + apply Z.mod_small. lia.
    + rewrite <- (Z.mod_add n 1 4294967296) in Hlt by lia.
      rewrite Z.mod_small in Hlt by lia. lia.
  - destruct (Z.le_gt_cases 0 n).
    + rewrite Z.mod_small in Hge by lia. lia.
    + rewrite <- (Z.mod_add n 1 4294967296) by lia.
      rewrite Z.mod_small by lia. lia.
Qed.

Lemma is_int32_range (n : Z) :
  is_int32 n = true -> - 2147483648 <= n < 2147483648.
Proof.
  unfold is_int32. change (2 ^ 31) with 2147483648. lia.
Qed.

(** Reading [n] bytes off a buffer that starts with [n] bytes. *)
Lemma bytes_app (n : nat) (l rest : list Z) :
  List.length l = n -> bytes n (l ++ rest)%list = inr (l, rest).
Proof.
  intros <-. unfold bytes.
  rewrite length_app.
  destruct (Nat.leb_spec (List.length l) (List.length l + List.length rest)) as [_|H];
    [|lia].
  rewrite firstn_app, skipn_app, Nat.sub_diag, firstn_all, skipn_all.
  simpl. now rewrite app_nil_r.
Qed.

Lemma int32_app (n : Z) (rest : list Z) :
  is_int32 n = true -> int32 (encode_int32 n ++ rest)%list = inr (n, rest).
Proof.
  intros Hn. unfold int32, bind.
  rewrite bytes_app by reflexivity.
  unfold ret. now rewrite signed32_unsigned_encode by now apply is_int32_range.
Qed.

Lemma uint8_cons (v : Z) (rest : list Z) :
  uint8 (v :: rest) = inr (v, rest).
Proof. reflexivity. Qed.

End Int32.

(* ================================================================= *)
(** * The codec: chunk payloads *)

Section ChunkCodec.
Import Codec.

Variable volume : nat.

Lemma valid_inv (c : ChunkPayload) :
  valid volume c = true ->
  is_int32 (x c) = true /\ is_int32 (z c) = true
  /\ TS.is_uint8 (version c) = true
  /\ List.length (blocks c) = volume
  /\ List.length (metadata c) = volume
  /\ List.length (light c) = volume
  /\ forallb TS.is_uint8 (blocks c) = true
  /\ forallb TS.is_uint8 (metadata c) = true
  /\ forallb TS.is_uint8 (light c) = true.
Proof.
  unfold valid. rewrite !andb_true_iff, !Nat.eqb_eq. tauto.
Qed.

(** The reader of a chunk payload takes an encoded chunk off the front of
    a buffer. *)
Lemma chunk_payload_encode (c : ChunkPayload) (rest : list Z) :
  valid volume c = true ->
  chunk_payload volume (encode_chunk c ++ rest)%list = inr (c, rest).
Proof.
  intros Hc.
  destruct (valid_inv c Hc) as [Hx [Hz [_ [Hb [Hm [Hl _]]]]]].
  unfold chunk_payload, encode_chunk.
  rewrite <- !app_assoc.
  unfold bind at 1. rewrite (int32_app _ _ Hx).
  unfold bind at 1. rewrite (int32_app _ _ Hz).
  unfold bind at 1. simpl app. rewrite uint8_cons.
  unfold bind at 1. rewrite (bytes_app _ _ _ Hb).
  unfold bind at 1. rewrite (bytes_app _ _ _ Hm).
  unfold bind at 1. rewrite (bytes_app _ _ _ Hl).
  unfold ret. destruct c; reflexivity.
Qed.

Lemma encode_chunk_length (c : ChunkPayload) :
  valid volume c = true ->
  List.length (encode_chunk c) = chunk_payload_size volume.
Proof.
  intros Hc.
  destruct (valid_inv c Hc) as [_ [_ [_ [Hb [Hm [Hl _]]]]]].
  unfold encode_chunk, chunk_payload_size.
  rewrite !length_app, Hb, Hm, Hl. simpl. lia.
Qed.

(** A valid chunk payload is a [ChunkData] of [types.ts]. *)
Lemma valid_is_ChunkData (c : ChunkPayload) :
  valid volume c = true ->
  TS.conforms (to_ChunkData c) Types.ChunkData = true.
Proof.
  intros Hc.
  destruct (valid_inv c Hc) as [_ [_ [_ [_ [_ [_ [Hb [Hm Hl]]]]]]]].
  simpl. now rewrite Hb, Hm, Hl.
Qed.

End ChunkCodec.

(* ================================================================= *)
(** * The codec: round trip *)

Section CodecClaims.
Import Codec.

(** C5.  Round trip of the codec: for every valid chunk payload [c],
    decoding the bytes that encode [c] gives [c] again, on the payload
    alone and on the whole frame with its type tag; and a valid chunk
    payload is a [ChunkData] of [types.ts]. *)
Theorem decode_encode_chunk (volume : nat)
        (whole_payload : Protocol.MessageType -> list Z -> bool)
        (c : ChunkPayload) :
  valid volume c = true ->
  decode_chunk volume (encode_chunk c) = inr c
  /\ decode volume whole_payload (encode (ChunkFrame c)) = inr (ChunkFrame c)
  /\ TS.conforms (to_ChunkData c) Types.ChunkData = true.
Proof.
  intros Hc.
  assert (Hpayload : decode_chunk volume (encode_chunk c) = inr c).
  { unfold decode_chunk, finish.
    rewrite <- (app_nil_r (encode_chunk c)).
    now rewrite (chunk_payload_encode volume c [] Hc). }
  split; [assumption|]. split.
  - unfold encode.
    change (decode volume whole_payload
                   (tag_byte Protocol.CHUNK_DATA :: encode_chunk c))
      with (match decode_chunk volume (encode_chunk c) with
            | inl e => inl e
            | inr c' => inr (ChunkFrame c')
            end).
    now rewrite Hpayload.
  - now apply (valid_is_ChunkData volume).
Qed.

Lemma decode_encode_chunk_witness :
  valid 2 Examples.chunk = true
  /\ decode 2 Examples.whole_payload (encode (ChunkFrame Examples.chunk))
     = inr (ChunkFrame Examples.chunk).
Proof.
  split; [reflexivity|].
  apply (decode_encode_chunk 2 Examples.whole_payload Examples.chunk). reflexivity.
Defined.

End CodecClaims.

(* ================================================================= *)
(** * The session: PING *)

Section SessionClaims.
Import TS Session.

Variable verify_credentials : string -> string -> bool.
Variable world_exists : string -> bool.
Variable allowed : State -> Protocol.MessageType -> bool.
Variable error_threshold : nat.
Variable closes_on_excess : bool.
Variable error_code : Error -> Z.
Variable message_id : nat -> string.

Local Abbreviation step :=
  (Session.step verify_credentials world_exists allowed error_threshold
                closes_on_excess error_code message_id).

Lemma type_of_ping (m : value) :
  conforms m Protocol.PingMessage = true -> type_of m = Some Protocol.PING.
Proof.
  intros Hm.
  destruct (conforms_required m _ "type" (TLiteral "ping") Hm) as [v [Hget Hv]].
  { vm_compute. tauto. }
  apply conforms_literal in Hv. subst v.
  unfold type_of. rewrite Hget. reflexivity.
Qed.

Lemma timestamp_of_ping (m : value) :
  conforms m Protocol.PingMessage = true ->
  exists t, get m "timestamp" = Some (VNumber t).
Proof.
  intros Hm.
  destruct (conforms_required m _ "timestamp" TNumber Hm) as [v [Hget Hv]].
  { vm_compute. tauto. }
  apply conforms_number in Hv. destruct Hv as [t ->]. now exists t.
Qed.

(** C7.  A PING received in a state that is not terminal is answered with
    one message, a well-formed PONG whose [timestamp] is the [timestamp]
    of the PING; the state of the session does not change. *)
Theorem ping_is_answered_with_pong (now : Z) (s : Session) (ping : value) :
  conforms ping Protocol.PingMessage = true ->
  is_terminal (state s) = false ->
  exists pong,
    snd (step now s (Receive ping)) = [pong]
    /\ conforms pong Protocol.PongMessage = true
    /\ get pong "type" = Some (VString "pong")
    /\ get pong "timestamp" = get ping "timestamp"
    /\ state (fst (step now s (Receive ping))) = state s.
Proof.
  intros Hping Hlive.
  destruct (timestamp_of_ping ping Hping) as [t Ht].
  exists (Session.pong message_id s t).
  assert (Hstep : step now s (Receive ping)
                  = send s (state s) (Session.pong message_id s t)).
  { unfold Session.step. rewrite Hlive.
    unfold receive. rewrite (type_of_ping ping Hping), Ht.
    destruct (state s); reflexivity. }
  rewrite Hstep, Ht. repeat split; reflexivity.
Qed.

End SessionClaims.

Section SessionExamples.
Import TS Session.

Lemma ping_is_answered_with_pong_witness :
  conforms Examples.ping Protocol.PingMessage = true
  /\ is_terminal (state (Examples.fresh WorldJoined)) = false
  /\ exists pong,
       snd (Examples.step 1700000000200 (Examples.fresh WorldJoined)
                          (Receive Examples.ping)) = [pong]
       /\ get pong "timestamp" = Some (VNumber 1700000000123).
Proof.
  split; [reflexivity|]. split; [reflexivity|].
  destruct (ping_is_answered_with_pong
              Examples.verify_credentials Examples.world_exists Examples.allowed
              Examples.error_threshold Examples.closes_on_excess
              Examples.error_code Examples.message_id
              1700000000200 (Examples.fresh WorldJoined) Examples.ping)
    as [pong [Hsent [_ [_ [Hecho _]]]]]; [reflexivity|reflexivity|].
  exists pong. split; [exact Hsent|exact Hecho].
Defined.

End SessionExamples.

(* ================================================================= *)
(** * Objects, property by property *)

Section ObjectFacts.
Import TS.

Lemma conforms_object_iff (fs : list (string * value)) (props : list property) :
  conforms (VObject fs) (TObject props) = true
  <-> forall p, In p props -> admits fs p = true.
Proof.
  change (conforms (VObject fs) (TObject props)) with (forallb (admits fs) props).
  apply forallb_forall.
Qed.

(** A property with a narrower type, or required where the other is
    optional, is admitted wherever the other is. *)
Lemma admits_narrower (fs : list (string * value)) (name : string)
      (o o' : bool) (t t' : ty) :
  admits fs (Property name o t) = true ->
  (o = true -> o' = true) ->
  (forall v, conforms v t = true -> conforms v t' = true) ->
  admits fs (Property name o' t') = true.
Proof.
  intros H Ho Ht. simpl in *.
  destruct (lookup name fs) as [v|]; [|now apply Ho].
  destruct v; try (now apply Ht).
  apply orb_true_iff in H. apply orb_true_iff.
  destruct H as [H|H]; [left; now apply Ho|right; now apply Ht].
Qed.

Lemma find_prop_In (name : string) (props : list property) (p : property) :
  find_prop name props = Some p -> In p props /\ prop_name p = name.
Proof.
  induction props as [|q props IH]; simpl; [discriminate|].
  destruct (String.eqb_spec (prop_name q) name) as [Heq|Hne].
  - intros [= <-]. split; [now left|assumption].
  - intros H. destruct (IH H) as [Hin Hname]. split; [now right|assumption].
Qed.

Lemma find_prop_None (name : string) (props : list property) (p : property) :
  find_prop name props = None -> In p props -> prop_name p <> name.
Proof.
  induction props as [|q props IH]; simpl; [tauto|].
  destruct (String.eqb_spec (prop_name q) name) as [Heq|Hne]; [discriminate|].
  intros H [<-|Hin]; [assumption|now apply IH].
Qed.

(** [interface I extends B]: a value of [I] is a value of [B] when every
    property that [I] declares again is narrower than the one of [B]. *)
Lemma extends_is_subtype (base own : list property) (m : value) :
  (forall b p, In b base -> find_prop (prop_name b) own = Some p ->
     (prop_optional p = true -> prop_optional b = true)
     /\ forall v, conforms v (prop_type p) = true -> conforms v (prop_type b) = true) ->
  conforms m (interface_extends (TObject base) own) = true ->
  conforms m (TObject base) = true.
Proof.
  intros Hnarrow Hm.
  destruct (conforms_object_inv m _ Hm) as [fs ->].
  unfold interface_extends, props_of in Hm.
  rewrite conforms_object_iff in Hm. apply conforms_object_iff.
  intros b Hb.
  destruct (find_prop (prop_name b) own) as [p|] eqn:Hfind.
  - destruct (Hnarrow b p Hb Hfind) as [Hopt Hty].
    destruct (find_prop_In _ _ _ Hfind) as [Hin Hname].
    assert (Hp : admits fs p = true).
    { apply Hm. unfold extend. apply in_or_app. now right. }
    destruct p as [n o t], b as [n' o' t']. simpl in *. subst n.
    exact (admits_narrower fs n' o o' t t' Hp Hopt Hty).
  - apply Hm. unfold extend. apply in_or_app. left.
    apply filter_In. split; [assumption|].
    unfold declares. now rewrite Hfind.
Qed.

(** A value of a type with more properties is a value of the type with
    some of them. *)
Lemma conforms_fewer (props props' : list property) (m : value) :
  (forall p, In p props' -> In p props) ->
  conforms m (TObject props) = true ->
  conforms m (TObject props') = true.
Proof.
  intros Hsub Hm.
  destruct (conforms_object_inv m _ Hm) as [fs ->].
  rewrite conforms_object_iff in Hm. apply conforms_object_iff.
  intros p Hp. apply Hm, Hsub, Hp.
Qed.

(** The tag of a shape is the [type] of its values. *)
Lemma conforms_tag (m : value) (shape : ty) (tag : string) :
  conforms m shape = true ->
  Protocol.tag_of shape = Some tag ->
  get m "type" = Some (VString tag).
Proof.
  intros Hm Htag. unfold Protocol.tag_of in Htag.
  destruct (find_prop "type" (props_of shape)) as [[n o t]|] eqn:Hfind;
    [|discriminate].
  destruct o; [discriminate|]. destruct t; try discriminate.
  injection Htag as ->.
  destruct (find_prop_In _ _ _ Hfind) as [Hin Hname]. simpl in Hname. subst n.
  destruct shape; simpl in Hin; try contradiction.
  destruct (conforms_required m _ "type" (TLiteral tag) Hm Hin) as [v [Hget Hv]].
  apply conforms_literal in Hv. now subst v.
Qed.

Lemma conforms_union (m : value) (alternatives : list ty) :
  conforms m (TUnion alternatives) = true ->
  exists a, In a alternatives /\ conforms m a = true.
Proof. simpl. intros H. now apply existsb_exists in H. Qed.

Lemma literal_is_MessageType (t : Protocol.MessageType) (v : value) :
  conforms v (Protocol.member t) = true ->
  conforms v Protocol.MessageType_type = true.
Proof.
  intros H. apply conforms_literal in H. subst v. destruct t; reflexivity.
Qed.

End ObjectFacts.

(* ================================================================= *)
(** * The union of messages, value by value *)

Section UnionFacts.
Import TS Protocol.

Lemma member_has_tag (shape : string * ty) :
  In shape NetworkMessage_members -> exists tag, tag_of (snd shape) = Some tag.
Proof.
  intros Hin. simpl in Hin.
  repeat (destruct Hin as [<-|Hin]; [eexists; reflexivity|]).
  contradiction.
Qed.

Lemma member_of_union (m : value) :
  conforms m NetworkMessage = true ->
  exists shape, In shape NetworkMessage_members /\ conforms m (snd shape) = true.
Proof.
  intros Hm. apply conforms_union in Hm. destruct Hm as [a [Hin Ha]].
  apply in_map_iff in Hin. destruct Hin as [shape [<- Hshape]].
  now exists shape.
Qed.

Lemma member_is_BaseMessage (shape : string * ty) (m : value) :
  In shape NetworkMessage_members ->
  conforms m (snd shape) = true ->
  conforms m BaseMessage = true.
Proof.
  intros Hin Hm. simpl in Hin.
  repeat (destruct Hin as [<-|Hin];
          [ refine (extends_is_subtype (props_of BaseMessage) _ m _ Hm);
            intros b p Hb; simpl in Hb;
            destruct Hb as [<-|[<-|[<-|[]]]]; simpl;
            intros Hfind; try discriminate Hfind;
            injection Hfind as <-;
            (split; [intros H; exact H
                    |intros v Hv;
                     first [exact Hv|exact (literal_is_MessageType _ v Hv)]])
          | ]).
  contradiction.
Qed.

(** X1.  Every well-formed message of the union [NetworkMessage] is a
    well-formed [BaseMessage]: it has a [type] that is the value of a
    member of [MessageType], an [id] that is a string and a [timestamp]
    that is a number. *)
Theorem NetworkMessage_is_BaseMessage (m : value) :
  conforms m NetworkMessage = true ->
  conforms m BaseMessage = true
  /\ (exists t, get m "type" = Some (VString (MessageType_value t)))
  /\ (exists id, get m "id" = Some (VString id))
  /\ (exists sent_at, get m "timestamp" = Some (VNumber sent_at)).
Proof.
  intros Hm.
  destruct (member_of_union m Hm) as [shape [Hin Hshape]].
  pose proof (member_is_BaseMessage shape m Hin Hshape) as Hbase.
  split; [assumption|]. split; [|split].
  - destruct (conforms_required m _ "type" MessageType_type Hbase) as [v [Hget Hv]].
    { simpl. tauto. }
    change MessageType_type
      with (TUnion (map TLiteral (map MessageType_value MessageType_members))) in Hv.
    apply conforms_literals in Hv. destruct Hv as [s [-> Hs]].
    apply in_map_iff in Hs. destruct Hs as [t [<- _]]. now exists t.
  - destruct (conforms_required m _ "id" TString Hbase) as [v [Hget Hv]].
    { simpl. tauto. }
    apply conforms_string in Hv. destruct Hv as [s ->]. now exists s.
  - destruct (conforms_required m _ "timestamp" TNumber Hbase) as [v [Hget Hv]].
    { simpl. tauto. }
    apply conforms_number in Hv. destruct Hv as [n ->]. now exists n.
Qed.

Lemma NetworkMessage_is_BaseMessage_witness :
  conforms Examples.ping NetworkMessage = true
  /\ conforms Examples.ping BaseMessage = true.
Proof.
  split; [reflexivity|].
  apply (NetworkMessage_is_BaseMessage Examples.ping). reflexivity.
Defined.

(** X2.  The union is discriminated by [type]: a value is well formed for
    at most one member of [NetworkMessage], the one whose tag is the
    [type] of the value. *)
Theorem NetworkMessage_member_is_unique (m : value) (s1 s2 : string * ty) :
  In s1 NetworkMessage_members ->
  In s2 NetworkMessage_members ->
  conforms m (snd s1) = true ->
  conforms m (snd s2) = true ->
  s1 = s2
  /\ exists tag, tag_of (snd s1) = Some tag /\ get m "type" = Some (VString tag).
Proof.
  intros H1 H2 Hm1 Hm2.
  destruct (member_has_tag s1 H1) as [tag1 Htag1].
  destruct (member_has_tag s2 H2) as [tag2 Htag2].
  pose proof (conforms_tag m _ _ Hm1 Htag1) as Hget1.
  pose proof (conforms_tag m _ _ Hm2 Htag2) as Hget2.
  split; [|now exists tag1].
  rewrite Hget1 in Hget2. injection Hget2 as <-.
  clear Hm1 Hm2 Hget1.
  simpl in H1.
  repeat (destruct H1 as [<-|H1];
          [ vm_compute in Htag1; injection Htag1 as <-;
            simpl in H2;
            repeat (destruct H2 as [<-|H2];
                    [first [reflexivity|vm_compute in Htag2; discriminate Htag2]|]);
            contradiction
          | ]).
  contradiction.
Qed.

Lemma NetworkMessage_member_is_unique_witness :
  In ("PongMessage", PongMessage) NetworkMessage_members
  /\ conforms Examples.pong PongMessage = true
  /\ exists tag, tag_of PongMessage = Some tag
                 /\ get Examples.pong "type" = Some (VString tag).
Proof.
  assert (Hin : In ("PongMessage", PongMessage) NetworkMessage_members).
  { simpl. tauto. }
  split; [exact Hin|]. split; [reflexivity|].
  exact (proj2 (NetworkMessage_member_is_unique
                  Examples.pong ("PongMessage", PongMessage)
                  ("PongMessage", PongMessage) Hin Hin eq_refl eq_refl)).
Defined.

End UnionFacts.

Section TagFacts.
Import TS Protocol.

(** X3.  The values of the members of [MessageType] are pairwise
    distinct: the string of a type tag names one member. *)
Theorem MessageType_value_is_injective (t1 t2 : MessageType) :
  MessageType_value t1 = MessageType_value t2 -> t1 = t2.
Proof.
  destruct t1; destruct t2; intros H;
    first [reflexivity|discriminate H].
Qed.

Lemma MessageType_value_is_injective_witness :
  MessageType_value PING = "ping" /\ PING = PING.
Proof.
  split; [reflexivity|].
  apply (MessageType_value_is_injective PING PING). reflexivity.
Defined.

(** X4.  [BaseMessage] admits an envelope with any tag of the catalogue,
    and the union [NetworkMessage] admits no value whose [type] is one of
    the twelve tags without a shape: such a message is a well-formed
    [BaseMessage] and not a well-formed [NetworkMessage]. *)
Theorem NetworkMessage_rejects_tags_without_a_shape :
  (forall t, conforms (Examples.envelope_of (MessageType_value t)) BaseMessage = true)
  /\ forall m t,
       In t [ WORLD_LEAVE_REQUEST; WORLD_DELETE_REQUEST; PLAYER_INVENTORY_UPDATE;
              ENTITY_SPAWN; ENTITY_UPDATE; ENTITY_DESPAWN;
              CRAFTING_REQUEST; CRAFTING_RESPONSE; INVENTORY_ACTION;
              HEALTH_UPDATE; EXPERIENCE_UPDATE; SERVER_STATS ] ->
       get m "type" = Some (VString (MessageType_value t)) ->
       conforms m NetworkMessage = false.
Proof.
  split; [intros []; reflexivity|].
  intros m t Ht Hget.
  destruct (conforms m NetworkMessage) eqn:Hm; [exfalso|reflexivity].
  destruct (member_of_union m Hm) as [shape [Hin Hshape]].
  destruct (member_has_tag shape Hin) as [tag Htag].
  pose proof (conforms_tag m _ _ Hshape Htag) as Hget'.
  rewrite Hget in Hget'. injection Hget' as <-.
  clear Hshape Hm Hget.
  simpl in Hin.
  repeat (destruct Hin as [<-|Hin];
          [ vm_compute in Htag; injection Htag as Htag;
            simpl in Ht;
            repeat (destruct Ht as [<-|Ht]; [discriminate Htag|]);
            contradiction
          | ]).
  contradiction.
Qed.

Lemma NetworkMessage_rejects_tags_without_a_shape_witness :
  get (Examples.envelope_of "entity_spawn") "type" = Some (VString "entity_spawn")
  /\ conforms (Examples.envelope_of "entity_spawn") BaseMessage = true
  /\ conforms (Examples.envelope_of "entity_spawn") NetworkMessage = false.
Proof.
  split; [reflexivity|].
  destruct NetworkMessage_rejects_tags_without_a_shape as [Hbase Hunion].
  split; [exact (Hbase ENTITY_SPAWN)|].
  apply (Hunion (Examples.envelope_of "entity_spawn") ENTITY_SPAWN).
  - simpl. tauto.
  - reflexivity.
Defined.

End TagFacts.

(* ================================================================= *)
(** * Tuples, arrays and optional properties *)

Section ShapeFacts.
Import TS.

Lemma conforms_triple (v : value) :
  conforms v (TTuple [TNumber; TNumber; TNumber]) = true ->
  exists a b c, v = VArray [VNumber a; VNumber b; VNumber c].
Proof.
  destruct v as [| | | | |elements|]; simpl; try discriminate.
  destruct elements as [|e1 [|e2 [|e3 [|e4 rest]]]]; simpl;
    rewrite ?andb_false_r; try discriminate.
  destruct e1; simpl; try discriminate.
  destruct e2; simpl; try discriminate.
  destruct e3; simpl; try discriminate.
  intros _. now eexists _, _, _.
Qed.

Lemma conforms_array (v : value) (t : ty) :
  conforms v (TArray t) = true ->
  exists items, v = VArray items /\ forall item, In item items -> conforms item t = true.
Proof.
  destruct v as [| | | | |elements|]; simpl; try discriminate.
  intros H. exists elements. split; [reflexivity|].
  now apply forallb_forall.
Qed.

(** An optional property of a conforming object is missing, [undefined],
    or a value of the declared type. *)
Lemma conforms_optional (m : value) (props : list property) (name : string) (t : ty) :
  conforms m (TObject props) = true ->
  In (Property name true t) props ->
  get m name = None
  \/ get m name = Some VUndefined
  \/ exists v, get m name = Some v /\ conforms v t = true.
Proof.
  intros Hm Hin.
  destruct (conforms_object_inv m _ Hm) as [fs ->].
  rewrite conforms_object_iff in Hm. specialize (Hm _ Hin).
  simpl in *.
  destruct (lookup name fs) as [v|]; [|now left].
  right. destruct v; try (right; eexists; split; [reflexivity|assumption]).
  now left.
Qed.

End ShapeFacts.

(* ================================================================= *)
(** * Chunks, blocks and chat, across the two modules *)

Section AcrossModules.
Import TS.

(** X5.  A well-formed [chunk_data] message is a well-formed [ChunkData]
    of [types.ts]: its coordinates are numbers and its block, metadata and
    light arrays are arrays of bytes. *)
Theorem ChunkDataMessage_is_ChunkData (m : value) :
  conforms m Protocol.ChunkDataMessage = true ->
  conforms m Types.ChunkData = true
  /\ (forall name, In name ["x"; "z"] -> exists n, get m name = Some (VNumber n))
  /\ (forall name, In name ["blocks"; "metadata"; "light"] ->
        exists elements,
          get m name = Some (VUint8Array elements)
          /\ forall b, In b elements -> 0 <= b <= 255).
Proof.
  intros Hm. split; [|split].
  - refine (conforms_fewer (props_of Protocol.ChunkDataMessage) _ m _ Hm).
    intros p Hp. simpl in Hp. simpl.
    repeat (destruct Hp as [<-|Hp]; [tauto|]). contradiction.
  - intros name Hname.
    destruct (conforms_required m _ name TNumber Hm) as [v [Hget Hv]].
    { simpl in Hname. destruct Hname as [<-|[<-|[]]]; simpl; tauto. }
    apply conforms_number in Hv. destruct Hv as [n ->]. now exists n.
  - intros name Hname.
    destruct (conforms_required m _ name TUint8Array Hm) as [v [Hget Hv]].
    { simpl in Hname. destruct Hname as [<-|[<-|[<-|[]]]]; simpl; tauto. }
    apply conforms_uint8array in Hv. destruct Hv as [elements [-> Hrange]].
    now exists elements.
Qed.

Lemma ChunkDataMessage_is_ChunkData_witness :
  conforms (Examples.chunk_data [0; 7]) Protocol.ChunkDataMessage = true
  /\ conforms (Examples.chunk_data [0; 7]) Types.ChunkData = true.
Proof.
  split; [reflexivity|].
  apply (ChunkDataMessage_is_ChunkData (Examples.chunk_data [0; 7])). reflexivity.
Defined.

(** X6.  The two chat types do not meet: no value is both a well-formed
    [ChatMessageMessage] of the protocol and a well-formed [ChatMessage] of
    [types.ts].  The first has the [type] 'chat_message' and a number as
    [timestamp]; the second has a chat kind as [type] and a string as
    [timestamp]. *)
Theorem chat_types_are_disjoint (m : value) :
  conforms m Protocol.ChatMessageMessage = true ->
  conforms m Types.ChatMessage = false
  /\ get m "type" = Some (VString "chat_message")
  /\ exists sent_at, get m "timestamp" = Some (VNumber sent_at).
Proof.
  intros Hm.
  destruct (conforms_required m _ "type" (TLiteral "chat_message") Hm)
    as [v [Htype Hv]].
  { vm_compute. tauto. }
  apply conforms_literal in Hv. subst v.
  destruct (conforms_required m _ "timestamp" TNumber Hm) as [v [Htime Hv]].
  { vm_compute. tauto. }
  apply conforms_number in Hv. destruct Hv as [sent_at ->].
  split; [|split; [assumption|now exists sent_at]].
  destruct (conforms m Types.ChatMessage) eqn:Hchat; [exfalso|reflexivity].
  destruct (conforms_required m _ "timestamp" TString Hchat) as [v [Htime' Hv]].
  { simpl. tauto. }
  rewrite Htime in Htime'. injection Htime' as <-. discriminate Hv.
Qed.

Lemma chat_types_are_disjoint_witness :
  conforms Examples.chat_message Protocol.ChatMessageMessage = true
  /\ conforms Examples.chat_message Types.ChatMessage = false.
Proof.
  split; [reflexivity|].
  apply (chat_types_are_disjoint Examples.chat_message). reflexivity.
Defined.

(** X7.  The [blockId] of a [block_update] is any number, while the arrays
    of a chunk hold bytes: a well-formed [block_update] exists for every
    integer that a JavaScript number holds exactly (every integer of
    magnitude at most 2^53 - 1), and an integer outside 0..=255 is in no
    array of a well-formed [chunk_data] message or [ChunkData]. *)
Theorem block_update_names_blocks_no_chunk_holds :
  (forall block,
      - 9007199254740991 <= block <= 9007199254740991 ->
      conforms (Examples.block_update block) Protocol.BlockUpdateMessage = true
      /\ get (Examples.block_update block) "blockId" = Some (VNumber block))
  /\ (forall block m name elements,
        ~ (0 <= block <= 255) ->
        conforms m Protocol.ChunkDataMessage = true
        \/ conforms m Types.ChunkData = true ->
        In name ["blocks"; "metadata"; "light"] ->
        get m name = Some (VUint8Array elements) ->
        ~ In block elements).
Proof.
  split; [intros block _; split; reflexivity|].
  intros block m name elements Hblock Hm Hname Hget Hin.
  assert (H : exists v, get m name = Some v /\ conforms v TUint8Array = true).
  { destruct Hm as [Hm|Hm];
      apply (conforms_required m _ name TUint8Array Hm);
      simpl in Hname; destruct Hname as [<-|[<-|[<-|[]]]]; simpl; tauto. }
  destruct H as [v [Hget' Hv]].
  rewrite Hget in Hget'. injection Hget' as <-.
  apply conforms_uint8array in Hv. destruct Hv as [elements' [[= <-] Hrange]].
  apply Hblock, Hrange, Hin.
Qed.

Lemma block_update_names_blocks_no_chunk_holds_witness :
  conforms (Examples.block_update 7) Protocol.BlockUpdateMessage = true
  /\ conforms (Examples.block_update 300) Protocol.BlockUpdateMessage = true
  /\ ~ (0 <= 300 <= 255)
  /\ conforms (Examples.chunk_data [0; 7]) Protocol.ChunkDataMessage = true
  /\ ~ In 300 [0; 7].
Proof.
  destruct block_update_names_blocks_no_chunk_holds as [Hany Hnone].
  assert (Hout : ~ (0 <= 300 <= 255)) by lia.
  split; [apply (Hany 7); lia|].
  split; [apply (Hany 300); lia|].
  split; [exact Hout|].
  split; [reflexivity|].
  apply (Hnone 300 (Examples.chunk_data [0; 7]) "blocks" [0; 7] Hout).
  - left. reflexivity.
  - simpl. tauto.
  - reflexivity.
Defined.

End AcrossModules.

(* ================================================================= *)
(** * Players, responses and errors *)

Section Payloads.
Import TS.

(** X8.  A well-formed [player_update] names its player and carries a
    position and a rotation of exactly three numbers each; its [health]
    and its [hunger] are optional, and a number when they are given. *)
Theorem player_update_payload (m : value) :
  conforms m Protocol.PlayerUpdateMessage = true ->
  (exists who, get m "playerId" = Some (VString who))
  /\ (forall name, In name ["position"; "rotation"] ->
        exists a b c, get m name = Some (VArray [VNumber a; VNumber b; VNumber c]))
  /\ (forall name, In name ["health"; "hunger"] ->
        get m name = None
        \/ get m name = Some VUndefined
        \/ exists n, get m name = Some (VNumber n)).
Proof.
  intros Hm. split; [|split].
  - destruct (conforms_required m _ "playerId" TString Hm) as [v [Hget Hv]].
    { vm_compute. tauto. }
    apply conforms_string in Hv. destruct Hv as [s ->]. now exists s.
  - intros name Hname.
    destruct (conforms_required m _ name (TTuple [TNumber; TNumber; TNumber]) Hm)
      as [v [Hget Hv]].
    { simpl in Hname. destruct Hname as [<-|[<-|[]]]; vm_compute; tauto. }
    apply conforms_triple in Hv. destruct Hv as [a [b [c ->]]].
    now exists a, b, c.
  - intros name Hname.
    destruct (conforms_optional m _ name TNumber Hm) as [H|[H|[v [Hget Hv]]]].
    { simpl in Hname. destruct Hname as [<-|[<-|[]]]; vm_compute; tauto. }
    + now left.
    + right. now left.
    + right. right. apply conforms_number in Hv. destruct Hv as [n ->].
      now exists n.
Qed.

Lemma player_update_payload_witness :
  conforms Examples.player_update Protocol.PlayerUpdateMessage = true
  /\ exists who, get Examples.player_update "playerId" = Some (VString who).
Proof.
  split; [reflexivity|].
  apply (player_update_payload Examples.player_update). reflexivity.
Defined.

(** X9.  A well-formed [error] message has a text; its [code] is optional:
    it is missing, [undefined] or a number, and an error message without a
    code is well formed. *)
Theorem error_code_is_optional :
  (forall m, conforms m Protocol.ErrorMessage = true ->
     (exists text, get m "error" = Some (VString text))
     /\ (get m "code" = None
         \/ get m "code" = Some VUndefined
         \/ exists code, get m "code" = Some (VNumber code)))
  /\ conforms Examples.error_without_code Protocol.ErrorMessage = true
  /\ get Examples.error_without_code "code" = None.
Proof.
  split; [|split; reflexivity].
  intros m Hm. split.
  - destruct (conforms_required m _ "error" TString Hm) as [v [Hget Hv]].
    { vm_compute. tauto. }
    apply conforms_string in Hv. destruct Hv as [s ->]. now exists s.
  - destruct (conforms_optional m _ "code" TNumber Hm) as [H|[H|[v [Hget Hv]]]].
    { vm_compute. tauto. }
    + now left.
    + right. now left.
    + right. right. apply conforms_number in Hv. destruct Hv as [n ->].
      now exists n.
Qed.

Lemma error_code_is_optional_witness :
  conforms Examples.error_without_code Protocol.ErrorMessage = true
  /\ exists text, get Examples.error_without_code "error" = Some (VString text).
Proof.
  split; [reflexivity|].
  apply (proj1 error_code_is_optional Examples.error_without_code). reflexivity.
Defined.

(** X10.  Every item of the inventory of a well-formed [Player] has a
    numeric [id] and a numeric [count]. *)
Theorem Player_inventory_items (p : value) :
  conforms p Types.Player = true ->
  exists items,
    get p "inventory" = Some (VArray items)
    /\ forall item, In item items ->
         conforms item Types.InventoryItem = true
         /\ (exists id, get item "id" = Some (VNumber id))
         /\ (exists count, get item "count" = Some (VNumber count)).
Proof.
  intros Hp.
  destruct (conforms_required p _ "inventory" (TArray Types.InventoryItem) Hp)
    as [v [Hget Hv]].
  { simpl. tauto. }
  apply conforms_array in Hv. destruct Hv as [items [-> Hitems]].
  exists items. split; [assumption|].
  intros item Hin. specialize (Hitems item Hin).
  split; [assumption|]. split.
  - destruct (conforms_required item _ "id" TNumber Hitems) as [v [Hg Hv]].
    { simpl. tauto. }
    apply conforms_number in Hv. destruct Hv as [n ->]. now exists n.
  - destruct (conforms_required item _ "count" TNumber Hitems) as [v [Hg Hv]].
    { simpl. tauto. }
    apply conforms_number in Hv. destruct Hv as [n ->]. now exists n.
Qed.

Lemma Player_inventory_items_witness :
  conforms Examples.player Types.Player = true
  /\ exists items, get Examples.player "inventory" = Some (VArray items).
Proof.
  split; [reflexivity|].
  destruct (Player_inventory_items Examples.player) as [items [H _]];
    [reflexivity|].
  now exists items.
Defined.

End Payloads.

(* ================================================================= *)
(** * The responses and the envelopes of the two modules *)

Section Responses.
Import TS.

Lemma conforms_boolean (v : value) :
  conforms v TBoolean = true -> exists b, v = VBoolean b.
Proof. destruct v; simpl; try discriminate. intros _. eexists; reflexivity. Qed.

Lemma conforms_any (v : value) : conforms v TAny = true.
Proof. reflexivity. Qed.

(** A property given and not [undefined] has a value of its type. *)
Lemma conforms_given (m : value) (props : list property) (name : string)
      (o : bool) (t : ty) (v : value) :
  conforms m (TObject props) = true ->
  In (Property name o t) props ->
  get m name = Some v -> v <> VUndefined ->
  conforms v t = true.
Proof.
  intros Hm Hin Hget Hv.
  destruct (conforms_object_inv m _ Hm) as [fs ->].
  rewrite conforms_object_iff in Hm. specialize (Hm _ Hin).
  simpl in *. rewrite Hget in Hm.
  destruct v; try assumption. congruence.
Qed.

(** X11.  An [AuthResponse] of [types.ts] in an envelope with the tag
    'auth_response' is a well-formed [auth_response] message, and its
    [player], when given, is a well-formed [Player].  The message itself
    takes any value as [player]: one whose [player] is a string is well
    formed as a message and not as an [AuthResponse]. *)
Theorem AuthResponse_in_an_envelope :
  (forall m,
      conforms m Types.AuthResponse = true ->
      conforms m Protocol.BaseMessage = true ->
      get m "type" = Some (VString "auth_response") ->
      conforms m Protocol.AuthResponseMessage = true)
  /\ (forall r who,
        conforms r Types.AuthResponse = true ->
        get r "player" = Some who -> who <> VUndefined ->
        conforms who Types.Player = true)
  /\ (forall who,
        conforms (Examples.auth_response who) Protocol.AuthResponseMessage = true)
  /\ conforms (Examples.auth_response (VString "nobody")) Types.AuthResponse = false.
Proof.
  split; [|split; [|split]].
  - intros m Hauth Hbase Htype.
    destruct (conforms_object_inv m _ Hauth) as [fs ->].
    change Types.AuthResponse with (TObject (props_of Types.AuthResponse)) in Hauth.
    change Protocol.BaseMessage with (TObject (props_of Protocol.BaseMessage)) in Hbase.
    change Protocol.AuthResponseMessage
      with (TObject (props_of Protocol.AuthResponseMessage)).
    rewrite conforms_object_iff in Hauth, Hbase.
    apply conforms_object_iff.
    intros p Hp. simpl in Hp.
    destruct Hp as [<-|[<-|[<-|[<-|[<-|[<-|[<-|[]]]]]]]].
    + apply Hbase. simpl. tauto.
    + apply Hbase. simpl. tauto.
    + simpl in Htype. simpl. now rewrite Htype.
    + apply Hauth. simpl. tauto.
    + apply Hauth. simpl. tauto.
    + apply (admits_narrower fs "player" true true Types.Player TAny).
      * apply Hauth. simpl. tauto.
      * trivial.
      * intros v _. apply conforms_any.
    + apply Hauth. simpl. tauto.
  - intros r who Hr Hget Hwho.
    refine (conforms_given r _ "player" true Types.Player who Hr _ Hget Hwho).
    simpl. tauto.
  - intros who. destruct who; reflexivity.
  - reflexivity.
Qed.

Lemma AuthResponse_in_an_envelope_witness :
  conforms (Examples.auth_response Examples.player) Types.AuthResponse = true
  /\ conforms (Examples.auth_response Examples.player) Protocol.AuthResponseMessage = true
  /\ conforms Examples.player Types.Player = true.
Proof.
  destruct AuthResponse_in_an_envelope as [Hmessage [Hplayer _]].
  split; [reflexivity|]. split.
  - apply (Hmessage (Examples.auth_response Examples.player)); reflexivity.
  - apply (Hplayer (Examples.auth_response Examples.player) Examples.player);
      [reflexivity|reflexivity|discriminate].
Defined.

(** X12.  A [WorldJoinResponse] of [types.ts] says whether the join
    succeeded; its [world], when given, is a well-formed [WorldInfo] and
    its [player], when given, a well-formed [Player], each with a game mode
    of [GameMode].  The [world_join_response] message of the protocol
    takes any values as [world] and [player]. *)
Theorem WorldJoinResponse_payload :
  (forall r,
      conforms r Types.WorldJoinResponse = true ->
      (exists success, get r "success" = Some (VBoolean success))
      /\ (forall world,
            get r "world" = Some world -> world <> VUndefined ->
            conforms world Types.WorldInfo = true
            /\ exists g, get world "gameMode" = Some (VString (Types.GameMode_value g)))
      /\ (forall who,
            get r "player" = Some who -> who <> VUndefined ->
            conforms who Types.Player = true
            /\ exists g, get who "gameMode" = Some (VString (Types.GameMode_value g))))
  /\ (forall world who,
        conforms (Examples.world_join_response world who)
                 Protocol.WorldJoinResponseMessage = true).
Proof.
  split.
  - intros r Hr. split; [|split].
    + destruct (conforms_required r _ "success" TBoolean Hr) as [v [Hget Hv]].
      { simpl. tauto. }
      apply conforms_boolean in Hv. destruct Hv as [b ->]. now exists b.
    + intros world Hget Hgiven.
      assert (Hworld : conforms world Types.WorldInfo = true).
      { refine (conforms_given r _ "world" true Types.WorldInfo world Hr _ Hget Hgiven).
        simpl. tauto. }
      split; [assumption|].
      destruct (conforms_required world _ "gameMode" Types.GameMode_type Hworld)
        as [v [Hmode Hv]].
      { simpl. tauto. }
      apply conforms_GameMode in Hv. destruct Hv as [g ->]. now exists g.
    + intros who Hget Hgiven.
      assert (Hwho : conforms who Types.Player = true).
      { refine (conforms_given r _ "player" true Types.Player who Hr _ Hget Hgiven).
        simpl. tauto. }
      split; [assumption|].
      destruct (conforms_required who _ "gameMode" Types.GameMode_type Hwho)
        as [v [Hmode Hv]].
      { simpl. tauto. }
      apply conforms_GameMode in Hv. destruct Hv as [g ->]. now exists g.
  - intros world who. destruct world; destruct who; reflexivity.
Qed.

Lemma WorldJoinResponse_payload_witness :
  conforms (Examples.world_join_response Examples.world_info Examples.player)
           Types.WorldJoinResponse = true
  /\ conforms Examples.world_info Types.WorldInfo = true
  /\ conforms Examples.player Types.Player = true.
Proof.
  destruct (proj1 WorldJoinResponse_payload
              (Examples.world_join_response Examples.world_info Examples.player))
    as [_ [Hworld Hplayer]]; [reflexivity|].
  split; [reflexivity|]. split.
  - apply (Hworld Examples.world_info); [reflexivity|discriminate].
  - apply (Hplayer Examples.player); [reflexivity|discriminate].
Defined.

(** X13.  A well-formed message of the protocol is a well-formed envelope
    of [types.ts] exactly when it has a [payload] property: the interfaces
    of the protocol declare none. *)
Theorem protocol_message_as_plain_envelope (m : value) :
  conforms m Protocol.NetworkMessage = true ->
  (conforms m Types.NetworkMessage = true <-> get m "payload" <> None).
Proof.
  intros Hm.
  destruct (member_of_union m Hm) as [shape [Hin Hshape]].
  pose proof (member_is_BaseMessage shape m Hin Hshape) as Hbase.
  destruct (conforms_required m _ "type" Protocol.MessageType_type Hbase)
    as [tag [Htype Htag]].
  { simpl. tauto. }
  change Protocol.MessageType_type
    with (TUnion (map TLiteral
                      (map Protocol.MessageType_value Protocol.MessageType_members)))
    in Htag.
  apply conforms_literals in Htag. destruct Htag as [s [-> _]].
  destruct (conforms_required m _ "timestamp" TNumber Hbase) as [v [Htime Hv]].
  { simpl. tauto. }
  apply conforms_number in Hv. destruct Hv as [sent_at ->].
  destruct (conforms_object_inv m _ Hbase) as [fs ->].
  simpl in Htype, Htime. simpl get.
  split.
  - intros Hplain.
    destruct (conforms_required (VObject fs) _ "payload" TAny Hplain) as [v [Hget _]].
    { simpl. tauto. }
    simpl in Hget. congruence.
  - intros Hpayload.
    change Types.NetworkMessage with (TObject (props_of Types.NetworkMessage)).
    apply conforms_object_iff. intros p Hp. simpl in Hp.
    destruct Hp as [<-|[<-|[<-|[]]]]; simpl.
    + now rewrite Htype.
    + destruct (lookup "payload" fs) as [v|]; [|congruence].
      destruct v; reflexivity.
    + now rewrite Htime.
Qed.

Lemma protocol_message_as_plain_envelope_witness :
  conforms Examples.ping Protocol.NetworkMessage = true
  /\ conforms Examples.ping Types.NetworkMessage = false.
Proof.
  split; [reflexivity|].
  destruct (protocol_message_as_plain_envelope Examples.ping eq_refl) as [H _].
  destruct (conforms Examples.ping Types.NetworkMessage); [|reflexivity].
  exfalso. now apply H.
Defined.

End Responses.
